(** * PreciseTime: a 64-bit elapsed-time clock over wrapping 32-bit counters

  Shallow embedding of [include/PreciseTime.h] / [include/PreciseTime.cpp].

  The C++ class keeps its whole state in static members and selects one of
  three counter-widening strategies with the preprocessor
  ([#if defined(ESP32)] / [#elif defined(ESP8266)] / [#else]).  Each branch
  is a module below, with the static members as a record and every member
  function as a state-passing function.  The value that the Arduino core
  returns for [micros()] / [millis()] during a call is an explicit argument
  [now]; it is converted to [uint32_t] exactly where the source assigns it.
  Interrupt handlers are ordinary state transformers that a trace may
  interleave between two calls. *)

From Stdlib Require Import ZArith Lia Bool List String Ascii SpecFloat.
From Stdlib Require QArith Qabs.
Import ListNotations.
Local Open Scope Z_scope.

(** ** Machine integers *)

Definition UINT32_MAX : Z := 4294967295.

(** Conversion to [uint32_t] and to [uint64_t]: reduction modulo the width. *)
Definition u32 (x : Z) : Z := x mod 2 ^ 32.
Definition u64 (x : Z) : Z := x mod 2 ^ 64.

#[global] Arguments u32 : simpl never.
#[global] Arguments u64 : simpl never.

Definition is_u32 (x : Z) : Prop := 0 <= x < 2 ^ 32.
Definition is_u64 (x : Z) : Prop := 0 <= x < 2 ^ 64.

(** ** The three build-time variants *)

Inductive platform : Set := ESP32 | ESP8266 | OtherArch.

(** *** [#if defined(ESP32)]: a hardware timer interrupt counts microseconds *)

Module OnESP32.

(** What the Arduino-ESP32 core keeps behind a [hw_timer_t*]; only the
    settings that [begin] writes are recorded. *)
Record hw_timer_t : Set := mkTimer {
  tm_num : Z;
  tm_divider : Z;
  tm_countUp : bool;
  tm_isr_attached : bool;
  tm_isr_edge : bool;
  tm_alarm_value : Z;
  tm_autoreload : bool;
  tm_alarm_enabled : bool
}.

Definition timerBegin (num divider : Z) (countUp : bool) : hw_timer_t :=
  mkTimer num divider countUp false false 0 false false.

Definition timerAttachInterrupt (t : hw_timer_t) (edge : bool) : hw_timer_t :=
  mkTimer (tm_num t) (tm_divider t) (tm_countUp t) true edge
          (tm_alarm_value t) (tm_autoreload t) (tm_alarm_enabled t).

Definition timerAlarmWrite (t : hw_timer_t) (v : Z) (autoreload : bool)
  : hw_timer_t :=
  mkTimer (tm_num t) (tm_divider t) (tm_countUp t) (tm_isr_attached t)
          (tm_isr_edge t) v autoreload (tm_alarm_enabled t).

Definition timerAlarmEnable (t : hw_timer_t) : hw_timer_t :=
  mkTimer (tm_num t) (tm_divider t) (tm_countUp t) (tm_isr_attached t)
          (tm_isr_edge t) (tm_alarm_value t) (tm_autoreload t) true.

(** The static members; [timer = nullptr] is [None]. *)
Record state : Set := mkState {
  initialized : bool;
  timer : option hw_timer_t;
  time_fct_micros : Z
}.

Definition static_init : state := mkState false None 0.

(** [timerISR]: [time_fct_micros++] inside the ISR critical section. *)
Definition timerISR (s : state) : state :=
  mkState (initialized s) (timer s) (u64 (time_fct_micros s + 1)).

Definition begin (now : Z) (s : state) : state :=
  if initialized s then s
  else
    let t := timerBegin 0 80 true in
    let t := timerAttachInterrupt t true in
    let t := timerAlarmWrite t 1 true in
    let t := timerAlarmEnable t in
    mkState true (Some t) (time_fct_micros s).

(** The read copies the counter inside [portENTER_CRITICAL] /
    [portEXIT_CRITICAL]; no handler runs in between, so the copy is the
    field. *)
Definition getMicroseconds (now : Z) (s : state) : state * Z :=
  if negb (initialized s) then (s, 0)
  else (s, time_fct_micros s).

(** [update] has an empty body on this platform. *)
Definition update (now : Z) (s : state) : state := s.

Definition isInitialized (s : state) : bool := initialized s.

Definition reset (now : Z) (s : state) : state :=
  mkState (initialized s) (timer s) 0.

End OnESP32.

(** *** [#elif defined(ESP8266)]: overflow counter and last [micros()] sample *)

Module OnESP8266.

Inductive timer1_divider : Set := TIM_DIV1 | TIM_DIV16 | TIM_DIV256.
Inductive timer1_int_type : Set := TIM_EDGE | TIM_LEVEL.
Inductive timer1_reload : Set := TIM_SINGLE | TIM_LOOP.

(** Settings of the core's timer1 as [begin] leaves them. *)
Record timer1_t : Set := mkTimer1 {
  t1_isr_init : bool;
  t1_isr_attached : bool;
  t1_enabled : option (timer1_divider * timer1_int_type * timer1_reload)
}.

Definition timer1_off : timer1_t := mkTimer1 false false None.

Definition timer1_isr_init (t : timer1_t) : timer1_t :=
  mkTimer1 true (t1_isr_attached t) (t1_enabled t).

Definition timer1_attachInterrupt (t : timer1_t) : timer1_t :=
  mkTimer1 (t1_isr_init t) true (t1_enabled t).

Definition timer1_enable (t : timer1_t) (d : timer1_divider)
           (i : timer1_int_type) (r : timer1_reload) : timer1_t :=
  mkTimer1 (t1_isr_init t) (t1_isr_attached t) (Some (d, i, r)).

Record state : Set := mkState {
  initialized : bool;
  overflow_counter : Z;
  last_micros : Z;
  total_micros : Z;
  timer1 : timer1_t
}.

Definition static_init : state := mkState false 0 0 0 timer1_off.

(** [microsOverflowISR]: [overflow_counter++] on a [uint32_t]. *)
Definition microsOverflowISR (s : state) : state :=
  mkState (initialized s) (u32 (overflow_counter s + 1))
          (last_micros s) (total_micros s) (timer1 s).

Definition updateTime (now : Z) (s : state) : state :=
  if negb (initialized s) then s
  else
    let current_micros := u32 now in
    let high_part := overflow_counter s in
    let high_part :=
      if current_micros <? last_micros s then u32 (high_part + 1)
      else high_part in
    mkState (initialized s) (overflow_counter s)
            current_micros
            (Z.lor (u64 (Z.shiftl (u64 high_part) 32)) current_micros)
            (timer1 s).

Definition begin (now : Z) (s : state) : state :=
  if initialized s then s
  else
    let t := timer1_isr_init (timer1 s) in
    let t := timer1_attachInterrupt t in
    let t := timer1_enable t TIM_DIV16 TIM_EDGE TIM_LOOP in
    mkState true 0 (u32 now) 0 t.

Definition getMicroseconds (now : Z) (s : state) : state * Z :=
  if negb (initialized s) then (s, 0)
  else
    let s' := updateTime now s in
    (s', total_micros s').

Definition update (now : Z) (s : state) : state := updateTime now s.

Definition isInitialized (s : state) : bool := initialized s.

Definition reset (now : Z) (s : state) : state :=
  mkState (initialized s) 0 (u32 now) 0 (timer1 s).

End OnESP8266.

(** *** [#else]: [millis()] is polled and its differences are accumulated *)

Module OnOther.

Record state : Set := mkState {
  initialized : bool;
  last_millis : Z;
  total_millis : Z
}.

Definition static_init : state := mkState false 0 0.

Definition updateSoftwareTimer (now : Z) (s : state) : state :=
  if negb (initialized s) then s
  else
    let current := u32 now in
    let delta :=
      if current >=? last_millis s then u32 (current - last_millis s)
      else u32 (u32 (u32 (UINT32_MAX - last_millis s) + current) + 1) in
    mkState (initialized s) current (u64 (total_millis s + delta)).

Definition begin (now : Z) (s : state) : state :=
  if initialized s then s
  else mkState true (u32 now) 0.

Definition getMicroseconds (now : Z) (s : state) : state * Z :=
  if negb (initialized s) then (s, 0)
  else
    let s' := updateSoftwareTimer now s in
    (s', u64 (total_millis s' * 1000)).

Definition update (now : Z) (s : state) : state := updateSoftwareTimer now s.

Definition isInitialized (s : state) : bool := initialized s.

Definition reset (now : Z) (s : state) : state :=
  mkState (initialized s) (u32 now) 0.

End OnOther.

(** ** The interface every variant implements

    The static members' initial values and the public member functions whose
    body differs between the three preprocessor branches. *)

Class Backend (St : Type) : Type := {
  static_init : St;
  initialized : St -> bool;
  begin : Z -> St -> St;
  getMicroseconds : Z -> St -> St * Z;
  update : Z -> St -> St;
  isInitialized : St -> bool;
  reset : Z -> St -> St
}.

#[global] Instance ESP32_backend : Backend OnESP32.state := {
  static_init := OnESP32.static_init;
  initialized := OnESP32.initialized;
  begin := OnESP32.begin;
  getMicroseconds := OnESP32.getMicroseconds;
  update := OnESP32.update;
  isInitialized := OnESP32.isInitialized;
  reset := OnESP32.reset
}.

#[global] Instance ESP8266_backend : Backend OnESP8266.state := {
  static_init := OnESP8266.static_init;
  initialized := OnESP8266.initialized;
  begin := OnESP8266.begin;
  getMicroseconds := OnESP8266.getMicroseconds;
  update := OnESP8266.update;
  isInitialized := OnESP8266.isInitialized;
  reset := OnESP8266.reset
}.

#[global] Instance Other_backend : Backend OnOther.state := {
  static_init := OnOther.static_init;
  initialized := OnOther.initialized;
  begin := OnOther.begin;
  getMicroseconds := OnOther.getMicroseconds;
  update := OnOther.update;
  isInitialized := OnOther.isInitialized;
  reset := OnOther.reset
}.

(** The state type and the implementation that a build for [p] links. *)
Definition clock (p : platform) : Type :=
  match p with
  | ESP32 => OnESP32.state
  | ESP8266 => OnESP8266.state
  | OtherArch => OnOther.state
  end.

#[global] Instance backend_of (p : platform) : Backend (clock p) :=
  match p with
  | ESP32 => ESP32_backend
  | ESP8266 => ESP8266_backend
  | OtherArch => Other_backend
  end.

(** ** IEEE binary64, for [getSecondsPrecise] *)

Definition double : Set := spec_float.

(** [(double)v] for an unsigned integer [v]: round to nearest, ties to even. *)
Definition double_of_u64 (v : Z) : double := binary_normalize 53 1024 v 0 false.

(** The literal [1000000.0]. *)
Definition one_million : double := double_of_u64 1000000.

Definition double_div (x y : double) : double := SFdiv 53 1024 x y.

Definition is_finite_double (d : double) : bool :=
  match d with
  | S754_zero _ | S754_finite _ _ _ => true
  | _ => false
  end.

(** The rational number that a finite double denotes: [(-1)^s * m * 2^e]. *)
Definition double_to_Q (d : double) : QArith_base.Q :=
  match d with
  | S754_finite s m e =>
      let n := if s then Zneg m else Zpos m in
      if 0 <=? e then QArith_base.inject_Z (n * 2 ^ e)
      else QArith_base.Qmake n (Z.to_pos (2 ^ (- e)))
  | _ => QArith_base.inject_Z 0
  end.

(** [r] is the quotient of [v] by one million up to a relative error of
    [2^-50]: [|r * 1000000 - v| <= v * 2^-50]. *)
Definition seconds_within_tolerance (r : double) (v : Z) : Prop :=
  QArith_base.Qle
    (Qabs.Qabs (QArith_base.Qminus
                  (QArith_base.Qmult (double_to_Q r)
                                     (QArith_base.inject_Z 1000000))
                  (QArith_base.inject_Z v)))
    (QArith_base.Qmult (QArith_base.inject_Z v)
                       (QArith_base.Qmake 1 (2 ^ 50))).

(** ** [snprintf] with the two conversions the source uses *)

Definition digit_char (d : Z) : ascii := ascii_of_nat (48 + Z.to_nat d).

(** Decimal digits of [n], most significant first; [fuel] bounds the number
    of digits (20 suffice for a [uint64_t]). *)
Fixpoint decimal_aux (fuel : nat) (n : Z) (acc : string) : string :=
  match fuel with
  | O => acc
  | S fuel' =>
      let acc' := String (digit_char (n mod 10)) acc in
      if n / 10 =? 0 then acc' else decimal_aux fuel' (n / 10) acc'
  end.

Definition decimal (n : Z) : string := decimal_aux 20 n EmptyString.

(** Zero padding on the left up to [width] characters. *)
Fixpoint zero_pad (k : nat) (s : string) : string :=
  match k with
  | O => s
  | S k' => String "0" (zero_pad k' s)
  end.

Definition decimal_padded (width : nat) (n : Z) : string :=
  let d := decimal n in
  zero_pad (width - String.length d) d.

(** Expansion of a format string: [%llu] prints a [uint64_t] argument,
    [%02lu] a [uint32_t] argument in at least two digits. *)
Fixpoint format (fmt : string) (args : list Z) {struct fmt} : string :=
  match fmt with
  | EmptyString => EmptyString
  | String "%" (String "l" (String "l" (String "u" rest))) =>
      match args with
      | a :: args' => decimal (u64 a) ++ format rest args'
      | [] => format rest []
      end
  | String "%" (String "0" (String "2" (String "l" (String "u" rest)))) =>
      match args with
      | a :: args' => decimal_padded 2 (u32 a) ++ format rest args'
      | [] => format rest []
      end
  | String c rest => String c (format rest args)
  end%string.

(** The text [HH:MM:SS]. *)
Definition clock_text (h m s : Z) : string :=
  (decimal_padded 2 h ++ ":" ++ decimal_padded 2 m ++ ":" ++ decimal_padded 2 s)%string.

(** [snprintf(buffer, size, fmt, ...)]: at most [size - 1] characters are
    stored before the terminating NUL. *)
Definition snprintf (size : nat) (fmt : string) (args : list Z) : string :=
  substring 0 (size - 1) (format fmt args).

(** ** The shared read surface

    These member functions have one body for all three variants; they reach
    the variant only through [getMicroseconds]. *)

Section ReadSurface.

Context {St : Type} {B : Backend St}.

Definition getMilliseconds (now : Z) (s : St) : St * Z :=
  let (s', us) := getMicroseconds now s in
  (s', us / 1000).

Definition getSeconds (now : Z) (s : St) : St * Z :=
  let (s', us) := getMicroseconds now s in
  (s', us / 1000000).

Definition getSecondsPrecise (now : Z) (s : St) : St * double :=
  let (s', us) := getMicroseconds now s in
  (s', double_div (double_of_u64 us) one_million).

(** The four reference parameters are returned as a tuple
    [(days, hours, minutes, seconds)]. *)
Definition getFormattedTime (now : Z) (s : St) : St * (Z * Z * Z * Z) :=
  let (s', total_seconds) := getSeconds now s in
  let days := total_seconds / 86400 in
  let remaining := total_seconds mod 86400 in
  let hours := u32 (remaining / 3600) in
  let remaining := remaining mod 3600 in
  let minutes := u32 (remaining / 60) in
  let seconds := u32 (remaining mod 60) in
  (s', (days, hours, minutes, seconds)).

Definition getFormattedString (now : Z) (s : St) : St * string :=
  let '(s', (days, hours, minutes, seconds)) := getFormattedTime now s in
  if days >? 0 then
    (s', snprintf 64 "%llu jours, %02lu:%02lu:%02lu"
                  [days; hours; minutes; seconds])
  else
    (s', snprintf 64 "%02lu:%02lu:%02lu" [hours; minutes; seconds]).

End ReadSurface.

(** ** Programs over the public interface

    A caller is a list of calls, each paired with the value the narrow
    hardware counter shows while the call runs. *)

Inductive call : Set :=
| CBegin
| CReset
| CUpdate
| CGetMicroseconds
| CGetMilliseconds
| CGetSeconds
| CGetSecondsPrecise
| CGetFormattedTime
| CGetFormattedString
| CIsInitialized.

Inductive result : Set :=
| RVoid
| RInt (v : Z)
| RDouble (d : double)
| RTime (dhms : Z * Z * Z * Z)
| RString (str : string)
| RBool (b : bool).

Definition is_begin (c : call) : bool :=
  match c with CBegin => true | _ => false end.

Definition is_reset (c : call) : bool :=
  match c with CReset => true | _ => false end.

(** Calls that neither arm nor re-baseline the clock. *)
Definition is_read_or_update (c : call) : bool :=
  negb (is_begin c) && negb (is_reset c).

(** What a read gives on a clock that shows no elapsed time. *)
Definition zero_result (r : result) : bool :=
  match r with
  | RVoid => true
  | RInt v => v =? 0
  | RDouble (S754_zero false) => true
  | RDouble _ => false
  | RTime (d, h, m, s) => (d =? 0) && (h =? 0) && (m =? 0) && (s =? 0)
  | RString str => String.eqb str "00:00:00"
  | RBool b => negb b
  end.

Section Programs.

Context {St : Type} {B : Backend St}.

Definition perform (c : call) (now : Z) (s : St) : St * result :=
  match c with
  | CBegin => (begin now s, RVoid)
  | CReset => (reset now s, RVoid)
  | CUpdate => (update now s, RVoid)
  | CGetMicroseconds => let (s', v) := getMicroseconds now s in (s', RInt v)
  | CGetMilliseconds => let (s', v) := getMilliseconds now s in (s', RInt v)
  | CGetSeconds => let (s', v) := getSeconds now s in (s', RInt v)
  | CGetSecondsPrecise =>
      let (s', d) := getSecondsPrecise now s in (s', RDouble d)
  | CGetFormattedTime =>
      let (s', t) := getFormattedTime now s in (s', RTime t)
  | CGetFormattedString =>
      let (s', str) := getFormattedString now s in (s', RString str)
  | CIsInitialized => (s, RBool (isInitialized s))
  end.

Fixpoint run (cs : list (call * Z)) (s : St) : St * list result :=
  match cs with
  | [] => (s, [])
  | (c, now) :: cs' =>
      let (s1, r) := perform c now s in
      let (s2, rs) := run cs' s1 in
      (s2, r :: rs)
  end.

End Programs.

(** ** Well-formed states: every field holds a value of its C type *)

Definition wf (p : platform) : clock p -> Prop :=
  match p with
  | ESP32 => fun s => is_u64 (OnESP32.time_fct_micros s)
  | ESP8266 => fun s =>
      is_u32 (OnESP8266.overflow_counter s) /\
      is_u32 (OnESP8266.last_micros s) /\
      is_u64 (OnESP8266.total_micros s)
  | OtherArch => fun s =>
      is_u32 (OnOther.last_millis s) /\ is_u64 (OnOther.total_millis s)
  end.

(** [lacks c s]: the character [c] does not occur in [s]. *)
Fixpoint lacks (c : ascii) (s : string) : bool :=
  match s with
  | EmptyString => true
  | String a s' => negb (Ascii.eqb a c) && lacks c s'
  end.

(** ** [getOverflowYears]

    [pow(2, 64) / 1000000.0 / 3600.0 / 24.0 / 365.0] in binary64.  Both
    arguments of [pow] are small integers and 2^64 is a binary64 number, so
    the C library returns the power exactly; the four constants are
    integers below 2^53 and convert exactly as well. *)

Definition pow_int (x y : Z) : double := binary_normalize 53 1024 (x ^ y) 0 false.

Definition getOverflowYears : double :=
  double_div
    (double_div
       (double_div
          (double_div (pow_int 2 64) one_million)
          (double_of_u64 3600))
       (double_of_u64 24))
    (double_of_u64 365).

(** [x < y] on doubles. *)
Definition double_lt (x y : double) : bool := SFltb x y.

(** ** Interrupts and traces

    A trace interleaves calls of the public interface with runs of the
    interrupt handler that the variant installs ([timerISR] on ESP32,
    [microsOverflowISR] on ESP8266; the polling variant installs none). *)

Definition interrupt (p : platform) : clock p -> clock p :=
  match p with
  | ESP32 => OnESP32.timerISR
  | ESP8266 => OnESP8266.microsOverflowISR
  | OtherArch => fun s => s
  end.

Inductive event : Set :=
| ECall (c : call) (now : Z)
| EInterrupt.

Definition step (p : platform) (s : clock p) (e : event) : clock p :=
  match e with
  | ECall c now => fst (perform c now s)
  | EInterrupt => interrupt p s
  end.

Definition steps (p : platform) (es : list event) (s : clock p) : clock p :=
  fold_left (step p) es s.

(** A trace in which [reset] is never called. *)
Definition no_reset_in (es : list event) : bool :=
  forallb (fun e => match e with ECall CReset _ => false | _ => true end) es.

(** ** True time on the polling variant

    [millis()] shows the true number of milliseconds since power-on reduced
    modulo 2^32; [updateSoftwareTimer] performs that reduction itself when it
    stores the sample, so a poll at true time [t] is [update t].  [paced t ts]
    says that the instants [ts] follow [t] in order, each less than one
    period of the narrow counter after the one before. *)

Fixpoint paced (t : Z) (ts : list Z) : Prop :=
  match ts with
  | [] => True
  | t' :: ts' => 0 <= t' - t < 2 ^ 32 /\ paced t' ts'
  end.

Definition poll_all (ts : list Z) (s : OnOther.state) : OnOther.state :=
  fold_left (fun s t => OnOther.update t s) ts s.

(** * Properties *)

(** ** Machine-integer facts *)

Lemma u32_range (x : Z) : is_u32 (u32 x).
Proof. unfold is_u32, u32. apply Z.mod_pos_bound. lia. Qed.

Lemma u64_range (x : Z) : is_u64 (u64 x).
Proof. unfold is_u64, u64. apply Z.mod_pos_bound. lia. Qed.

Lemma u32_small (x : Z) : is_u32 x -> u32 x = x.
Proof. unfold is_u32, u32. intros H. now apply Z.mod_small. Qed.

Lemma u64_small (x : Z) : is_u64 x -> u64 x = x.
Proof. unfold is_u64, u64. intros H. now apply Z.mod_small. Qed.

Lemma u32_idem (x : Z) : u32 (u32 x) = u32 x.
Proof. apply u32_small, u32_range. Qed.

Lemma u64_idem (x : Z) : u64 (u64 x) = u64 x.
Proof. apply u64_small, u64_range. Qed.

Create HintDb clock.
#[global] Hint Resolve u32_range u64_range : clock.

(** ** Well-formedness is invariant *)

Lemma lor_is_u64 (a b : Z) : is_u64 a -> is_u64 b -> is_u64 (Z.lor a b).
Proof.
  unfold is_u64. intros [Ha1 Ha2] [Hb1 Hb2].
  assert (N : 0 <= Z.lor a b) by (apply Z.lor_nonneg; split; assumption).
  split; [exact N |].
  destruct (Z.eq_dec (Z.lor a b) 0) as [E | E]; [rewrite E; reflexivity |].
  apply Z.log2_lt_pow2; [lia |].
  rewrite Z.log2_lor by assumption.
  apply Z.max_lub_lt.
  - destruct (Z.eq_dec a 0) as [-> | ?]; [cbn; lia | apply Z.log2_lt_pow2; lia].
  - destruct (Z.eq_dec b 0) as [-> | ?]; [cbn; lia | apply Z.log2_lt_pow2; lia].
Qed.

Lemma is_u32_is_u64 (x : Z) : is_u32 x -> is_u64 x.
Proof. unfold is_u32, is_u64. lia. Qed.

#[global] Hint Resolve lor_is_u64 is_u32_is_u64 : clock.

Section WellFormed.

Variable p : platform.

Implicit Types (s : clock p) (now : Z).

Lemma wf_static_init : wf p static_init.
Proof. destruct p; cbn; unfold is_u32, is_u64; lia. Qed.

Lemma wf_begin s now : wf p s -> wf p (begin now s).
Proof.
  destruct p; cbn [wf begin backend_of ESP32_backend ESP8266_backend Other_backend];
    intros H.
  - unfold OnESP32.begin. destruct (OnESP32.initialized s); assumption.
  - unfold OnESP8266.begin. destruct (OnESP8266.initialized s); [assumption |].
    cbn [OnESP8266.overflow_counter OnESP8266.last_micros OnESP8266.total_micros].
    split; [| split]; auto with clock; unfold is_u32, is_u64; lia.
  - unfold OnOther.begin. destruct (OnOther.initialized s); [assumption |].
    cbn [OnOther.last_millis OnOther.total_millis].
    split; [apply u32_range | unfold is_u64; lia].
Qed.

Lemma wf_reset s now : wf p s -> wf p (reset now s).
Proof.
  destruct p; cbn [wf reset backend_of ESP32_backend ESP8266_backend Other_backend];
    intros H.
  - unfold OnESP32.reset. cbn [OnESP32.time_fct_micros]. unfold is_u64; lia.
  - unfold OnESP8266.reset.
    cbn [OnESP8266.overflow_counter OnESP8266.last_micros OnESP8266.total_micros].
    split; [| split]; auto with clock; unfold is_u32, is_u64; lia.
  - unfold OnOther.reset. cbn [OnOther.last_millis OnOther.total_millis].
    split; [apply u32_range | unfold is_u64; lia].
Qed.

Lemma wf_update s now : wf p s -> wf p (update now s).
Proof.
  destruct p; cbn [wf update backend_of ESP32_backend ESP8266_backend Other_backend];
    intros H.
  - exact H.
  - unfold OnESP8266.update, OnESP8266.updateTime.
    destruct (OnESP8266.initialized s); [| exact H].
    cbn [negb OnESP8266.overflow_counter OnESP8266.last_micros
         OnESP8266.total_micros].
    destruct H as (H1 & H2 & H3).
    split; [| split]; auto with clock.
  - unfold OnOther.update, OnOther.updateSoftwareTimer.
    destruct (OnOther.initialized s); [| exact H].
    cbn [negb OnOther.last_millis OnOther.total_millis].
    split; auto with clock.
Qed.

Lemma getMicroseconds_state s now :
  fst (getMicroseconds now s) = update now s.
Proof.
  destruct p; cbn.
  - unfold OnESP32.getMicroseconds, OnESP32.update.
    now destruct (OnESP32.initialized s).
  - unfold OnESP8266.getMicroseconds, OnESP8266.update, OnESP8266.updateTime.
    now destruct (OnESP8266.initialized s).
  - unfold OnOther.getMicroseconds, OnOther.update, OnOther.updateSoftwareTimer.
    now destruct (OnOther.initialized s).
Qed.

(** On a well-formed clock the value read is a [uint64_t]. *)
Lemma getMicroseconds_is_u64 s now :
  wf p s -> is_u64 (snd (getMicroseconds now s)).
Proof.
  intros H. pose proof (wf_update s now H) as H'.
  destruct p; cbn in *.
  - unfold OnESP32.getMicroseconds.
    destruct (OnESP32.initialized s); cbn; [exact H | unfold is_u64; lia].
  - unfold OnESP8266.getMicroseconds. unfold OnESP8266.update in H'.
    destruct (OnESP8266.initialized s); cbn; [apply H' | unfold is_u64; lia].
  - unfold OnOther.getMicroseconds.
    destruct (OnOther.initialized s); cbn; [apply u64_range | unfold is_u64; lia].
Qed.

Lemma wf_perform (c : call) s now : wf p s -> wf p (fst (perform c now s)).
Proof.
  intros H.
  assert (G : wf p (fst (getMicroseconds now s)))
    by (rewrite getMicroseconds_state; apply wf_update, H).
  destruct c; cbn [perform];
    unfold getFormattedString, getFormattedTime, getSeconds, getMilliseconds,
      getSecondsPrecise;
    try (destruct (getMicroseconds now s) as [s' v]; cbn [fst] in *);
    auto using wf_begin, wf_reset, wf_update.
  destruct (_ >? 0); exact G.
Qed.

Lemma wf_run (cs : list (call * Z)) : forall s, wf p s -> wf p (fst (run cs s)).
Proof.
  induction cs as [|[c now] cs IH]; intros s H; cbn [run].
  - exact H.
  - pose proof (wf_perform c s now H) as H1.
    destruct (perform c now s) as [s1 r]. cbn [fst] in H1.
    specialize (IH s1 H1). destruct (run cs s1) as [s2 rs]. exact IH.
Qed.

End WellFormed.

Lemma wf_timerISR (s : OnESP32.state) : wf ESP32 s -> wf ESP32 (OnESP32.timerISR s).
Proof. intros _. apply u64_range. Qed.

Lemma wf_microsOverflowISR (s : OnESP8266.state) :
  wf ESP8266 s -> wf ESP8266 (OnESP8266.microsOverflowISR s).
Proof.
  intros (H1 & H2 & H3). unfold OnESP8266.microsOverflowISR.
  split; [| split];
    cbn [OnESP8266.overflow_counter OnESP8266.last_micros
         OnESP8266.total_micros];
    auto with clock.
Qed.

(** ** The un-initialized clock *)

Section Uninitialized.

Variable p : platform.

Implicit Types (s : clock p) (now : Z).

Lemma static_init_uninitialized : initialized (static_init (St := clock p)) = false.
Proof. destruct p; reflexivity. Qed.

Lemma isInitialized_flag s : isInitialized s = initialized s.
Proof. destruct p; reflexivity. Qed.

Lemma getMicroseconds_uninit s now :
  initialized s = false -> getMicroseconds now s = (s, 0).
Proof.
  destruct p; cbn in *; intros H;
    [ unfold OnESP32.getMicroseconds
    | unfold OnESP8266.getMicroseconds
    | unfold OnOther.getMicroseconds ];
    now rewrite H.
Qed.

Lemma update_uninit s now : initialized s = false -> update now s = s.
Proof.
  destruct p; cbn in *; intros H;
    [ reflexivity
    | unfold OnESP8266.update, OnESP8266.updateTime
    | unfold OnOther.update, OnOther.updateSoftwareTimer ];
    now rewrite H.
Qed.

Lemma reset_keeps_flag s now : initialized (reset now s) = initialized s.
Proof. destruct p; reflexivity. Qed.

Lemma getMilliseconds_uninit s now :
  initialized s = false -> getMilliseconds now s = (s, 0).
Proof.
  intros H. unfold getMilliseconds. now rewrite getMicroseconds_uninit.
Qed.

Lemma getSeconds_uninit s now :
  initialized s = false -> getSeconds now s = (s, 0).
Proof.
  intros H. unfold getSeconds. now rewrite getMicroseconds_uninit.
Qed.

Lemma getSecondsPrecise_uninit s now :
  initialized s = false -> getSecondsPrecise now s = (s, S754_zero false).
Proof.
  intros H. unfold getSecondsPrecise. now rewrite getMicroseconds_uninit.
Qed.

Lemma getFormattedTime_uninit s now :
  initialized s = false -> getFormattedTime now s = (s, (0, 0, 0, 0)).
Proof.
  intros H. unfold getFormattedTime. now rewrite getSeconds_uninit.
Qed.

Lemma getFormattedString_uninit s now :
  initialized s = false -> getFormattedString now s = (s, "00:00:00"%string).
Proof.
  intros H. unfold getFormattedString. now rewrite getFormattedTime_uninit.
Qed.

(** One call that is neither [begin] nor [reset] leaves an un-initialized
    clock as it was and reports no elapsed time. *)
Lemma perform_uninit c now s :
  initialized s = false ->
  is_read_or_update c = true ->
  perform c now s = (s, snd (perform c now s)) /\
  zero_result (snd (perform c now s)) = true.
Proof.
  intros H Hc. destruct c; try discriminate Hc; cbn [perform].
  - now rewrite update_uninit.
  - now rewrite getMicroseconds_uninit.
  - now rewrite getMilliseconds_uninit.
  - now rewrite getSeconds_uninit.
  - now rewrite getSecondsPrecise_uninit.
  - now rewrite getFormattedTime_uninit.
  - now rewrite getFormattedString_uninit.
  - rewrite isInitialized_flag, H. now split.
Qed.

(** Without [begin], the flag stays down whatever else is called. *)
Lemma perform_keeps_uninit c now s :
  initialized s = false ->
  is_begin c = false ->
  initialized (fst (perform c now s)) = false.
Proof.
  intros H Hc. destruct c; try discriminate Hc.
  - cbn [perform fst]. now rewrite reset_keeps_flag.
  - destruct (perform_uninit CUpdate now s H eq_refl) as [E _].
    rewrite E. exact H.
  - destruct (perform_uninit CGetMicroseconds now s H eq_refl) as [E _].
    rewrite E. exact H.
  - destruct (perform_uninit CGetMilliseconds now s H eq_refl) as [E _].
    rewrite E. exact H.
  - destruct (perform_uninit CGetSeconds now s H eq_refl) as [E _].
    rewrite E. exact H.
  - destruct (perform_uninit CGetSecondsPrecise now s H eq_refl) as [E _].
    rewrite E. exact H.
  - destruct (perform_uninit CGetFormattedTime now s H eq_refl) as [E _].
    rewrite E. exact H.
  - destruct (perform_uninit CGetFormattedString now s H eq_refl) as [E _].
    rewrite E. exact H.
  - exact H.
Qed.

Lemma run_keeps_uninit cs : forall s,
  initialized s = false ->
  forallb (fun cn => negb (is_begin (fst cn))) cs = true ->
  initialized (fst (run cs s)) = false.
Proof.
  induction cs as [|[c now] cs IH]; intros s H Hcs; cbn in *.
  - exact H.
  - apply andb_prop in Hcs as [Hc Hcs].
    apply negb_true_iff in Hc.
    pose proof (perform_keeps_uninit c now s H Hc) as H1.
    destruct (perform c now s) as [s1 r]. cbn in H1.
    specialize (IH s1 H1 Hcs).
    destruct (run cs s1) as [s2 rs]. exact IH.
Qed.

End Uninitialized.

(** C3.  On each of the three variants, as long as [begin] has not been
    called -- whatever else the caller has done since start-up -- every read
    ([getMicroseconds], [getMilliseconds], [getSeconds],
    [getSecondsPrecise]) returns 0 and [isInitialized] returns false. *)
Theorem reads_before_begin_are_zero (p : platform) (cs : list (call * Z)) (now : Z) :
  forallb (fun cn => negb (is_begin (fst cn))) cs = true ->
  let s := fst (run cs (static_init (St := clock p))) in
  isInitialized s = false /\
  snd (getMicroseconds now s) = 0 /\
  snd (getMilliseconds now s) = 0 /\
  snd (getSeconds now s) = 0 /\
  snd (getSecondsPrecise now s) = S754_zero false /\
  Forall (fun r => zero_result r = true) (snd (run cs (static_init (St := clock p)))).
Proof.
  intros Hcs s.
  assert (Hs : initialized s = false)
    by (apply run_keeps_uninit; [apply static_init_uninitialized | exact Hcs]).
  rewrite isInitialized_flag, getMicroseconds_uninit, getMilliseconds_uninit,
    getSeconds_uninit, getSecondsPrecise_uninit by exact Hs.
  repeat split; try exact Hs.
  clear s Hs.
  pose proof (static_init_uninitialized p) as H0.
  revert H0 Hcs. generalize (static_init (St := clock p)).
  induction cs as [|[c n] cs IH]; intros s H Hcs; cbn in *.
  - constructor.
  - apply andb_prop in Hcs as [Hc Hcs]. apply negb_true_iff in Hc.
    pose proof (perform_keeps_uninit p c n s H Hc) as H1.
    assert (Hr : zero_result (snd (perform c n s)) = true).
    { destruct c; try discriminate Hc;
        try (now apply perform_uninit).
      reflexivity. }
    destruct (perform c n s) as [s1 r]. cbn in H1, Hr.
    specialize (IH s1 H1 Hcs).
    destruct (run cs s1) as [s2 rs]. cbn in *. now constructor.
Qed.

Lemma reads_before_begin_are_zero_witness :
  let cs := [(CReset, 17); (CUpdate, 40); (CGetSeconds, 95)] in
  let s := fst (run cs (static_init (St := clock ESP8266))) in
  isInitialized s = false /\
  snd (getMicroseconds 120 s) = 0 /\
  snd (getMilliseconds 120 s) = 0 /\
  snd (getSeconds 120 s) = 0 /\
  snd (getSecondsPrecise 120 s) = S754_zero false /\
  Forall (fun r => zero_result r = true)
         (snd (run cs (static_init (St := clock ESP8266)))).
Proof.
  exact (reads_before_begin_are_zero ESP8266
           [(CReset, 17); (CUpdate, 40); (CGetSeconds, 95)] 120 eq_refl).
Defined.

(** C10.  On each variant, a program made only of [update] and read calls,
    run on a clock whose [initialized] flag is false, ends in the very state
    it started from, and each of its reads reports zero. *)
Theorem uninitialized_clock_is_frozen (p : platform) (cs : list (call * Z)) (s : clock p) :
  initialized s = false ->
  forallb (fun cn => is_read_or_update (fst cn)) cs = true ->
  fst (run cs s) = s /\
  Forall (fun r => zero_result r = true) (snd (run cs s)).
Proof.
  intros H. induction cs as [|[c now] cs IH]; intros Hcs; cbn in *.
  - split; [reflexivity | constructor].
  - apply andb_prop in Hcs as [Hc Hcs].
    destruct (perform_uninit p c now s H Hc) as [E Hr].
    rewrite E. destruct (IH Hcs) as [IH1 IH2].
    destruct (run cs s) as [s2 rs]. cbn in *. split.
    + exact IH1.
    + now constructor.
Qed.

Lemma uninitialized_clock_is_frozen_witness :
  let s := OnOther.mkState false 123 456 in
  let cs := [(CUpdate, 1000); (CGetMicroseconds, 2000);
             (CGetFormattedString, 3000); (CUpdate, 5)] in
  fst (run (St := clock OtherArch) cs s) = s /\
  Forall (fun r => zero_result r = true) (snd (run (St := clock OtherArch) cs s)).
Proof.
  exact (uninitialized_clock_is_frozen OtherArch
           [(CUpdate, 1000); (CGetMicroseconds, 2000);
            (CGetFormattedString, 3000); (CUpdate, 5)]
           (OnOther.mkState false 123 456) eq_refl eq_refl).
Defined.

(** ** [begin] and [reset] *)

Lemma begin_when_initialized (p : platform) (s : clock p) (now : Z) :
  initialized s = true -> begin now s = s.
Proof.
  destruct p; cbn in *; intros H;
    [ unfold OnESP32.begin | unfold OnESP8266.begin | unfold OnOther.begin ];
    now rewrite H.
Qed.

(** C5.  On each variant, [begin] on a clock that is already initialized
    returns the state unchanged: no field is written and no timer is
    armed. *)
Theorem begin_idempotent (p : platform) (s : clock p) (now : Z) :
  initialized s = true -> begin now s = s.
Proof. apply begin_when_initialized. Qed.

Lemma begin_idempotent_witness :
  let s := OnESP8266.mkState true 3 77 12884901965 OnESP8266.timer1_off in
  initialized (St := clock ESP8266) s = true /\
  begin (St := clock ESP8266) 1234 s = s.
Proof.
  split; [reflexivity | ].
  exact (begin_idempotent ESP8266
           (OnESP8266.mkState true 3 77 12884901965 OnESP8266.timer1_off)
           1234 eq_refl).
Defined.

Lemma begin_sets_flag (p : platform) (s : clock p) (now : Z) :
  initialized (begin now s) = true.
Proof.
  destruct p; cbn in *;
    [ unfold OnESP32.begin; destruct (OnESP32.initialized s) eqn:E
    | unfold OnESP8266.begin; destruct (OnESP8266.initialized s) eqn:E
    | unfold OnOther.begin; destruct (OnOther.initialized s) eqn:E ];
    auto.
Qed.

(** Hence calling [begin] twice is the same as calling it once. *)
Lemma begin_twice (p : platform) (s : clock p) (now now' : Z) :
  begin now' (begin now s) = begin now s.
Proof. apply begin_when_initialized, begin_sets_flag. Qed.

(** C9.  On each variant and in every state, [reset] leaves the
    [initialized] flag as it was ([isInitialized] answers the same before
    and after); it zeroes the wide total, takes the current narrow sample as
    the new baseline where the variant keeps one, and writes nothing else
    (the timer settings made by [begin] stay). *)
Theorem reset_preserves_initialized (p : platform) (s : clock p) (now : Z) :
  isInitialized (reset now s) = isInitialized s /\
  match p return clock p -> clock p -> Prop with
  | ESP32 => fun s s' =>
      OnESP32.time_fct_micros s' = 0 /\
      OnESP32.timer s' = OnESP32.timer s
  | ESP8266 => fun s s' =>
      OnESP8266.total_micros s' = 0 /\
      OnESP8266.overflow_counter s' = 0 /\
      OnESP8266.last_micros s' = u32 now /\
      OnESP8266.timer1 s' = OnESP8266.timer1 s
  | OtherArch => fun s s' =>
      OnOther.total_millis s' = 0 /\
      OnOther.last_millis s' = u32 now
  end s (reset now s).
Proof. destruct p; cbn; repeat split. Qed.


(** ** The polling variant: [updateSoftwareTimer] *)

Section Polling.
Import OnOther.
(** The difference the source computes, written without any wrap-around. *)
Lemma polling_delta_no_wrap (current last : Z) :
  is_u32 current -> is_u32 last ->
  (if current >=? last then u32 (current - last)
   else u32 (u32 (u32 (UINT32_MAX - last) + current) + 1))
  = (if current >=? last then current - last
     else (UINT32_MAX - last) + current + 1).
Proof.
  unfold is_u32, UINT32_MAX. intros Hc Hl.
  destruct (current >=? last) eqn:E.
  - apply Z.geb_le in E. apply u32_small. unfold is_u32. lia.
  - rewrite Z.geb_leb in E. apply Z.leb_gt in E.
    rewrite (u32_small (4294967295 - last)) by (unfold is_u32; lia).
    rewrite (u32_small (4294967295 - last + current)) by (unfold is_u32; lia).
    apply u32_small. unfold is_u32. lia.
Qed.
Lemma polling_delta_range (current last : Z) :
  is_u32 current -> is_u32 last ->
  is_u32 (if current >=? last then current - last
          else (UINT32_MAX - last) + current + 1).
Proof.
  unfold is_u32, UINT32_MAX. intros Hc Hl.
  destruct (current >=? last) eqn:E.
  - apply Z.geb_le in E. lia.
  - rewrite Z.geb_leb in E. apply Z.leb_gt in E. lia.
Qed.
(** One refresh of an initialized polling clock, with the difference
    written in unbounded integers. *)
Lemma updateSoftwareTimer_delta (s : state) (now : Z) :
  initialized s = true ->
  is_u32 (last_millis s) ->
  let current := u32 now in
  let delta :=
    if current >=? last_millis s then current - last_millis s
    else (UINT32_MAX - last_millis s) + current + 1 in
  update now s = mkState true current (u64 (total_millis s + delta)) /\
  is_u32 delta.
Proof.
  intros Hi Hl current delta.
  assert (Hc : is_u32 current) by apply u32_range.
  split.
  - unfold update, updateSoftwareTimer. rewrite Hi. cbn [negb].
    fold current. rewrite polling_delta_no_wrap by assumption.
    reflexivity.
  - apply polling_delta_range; assumption.
Qed.

(** C4.  On the polling variant, [update] on an initialized clock takes
    [delta = current - last_millis] when [current >= last_millis] and
    [delta = (UINT32_MAX - last_millis) + current + 1] otherwise, adds it to
    [total_millis] (a [uint64_t] addition) and stores [current] in
    [last_millis]; fed the samples 0xFFFFFFF0 and then 0x00000005, the
    second call adds exactly 21. *)
Theorem polling_update_adds_wrapped_delta (s : state) (now : Z) :
  initialized s = true ->
  is_u32 (last_millis s) ->
  let current := u32 now in
  let delta :=
    if current >=? last_millis s then current - last_millis s
    else (UINT32_MAX - last_millis s) + current + 1 in
  update now s = mkState true current (u64 (total_millis s + delta)) /\
  is_u32 delta /\
  (let s1 := update 4294967280 s in
   let s2 := update 5 s1 in
   last_millis s1 = 4294967280 /\
   last_millis s2 = 5 /\
   total_millis s2 = u64 (total_millis s1 + 21) /\
   (4294967295 - 4294967280) + 1 + 5 = 21).
Proof.
  intros Hi Hl current delta.
  destruct (updateSoftwareTimer_delta s now Hi Hl) as [E D].
  split; [exact E | split; [exact D |]].
  unfold update, updateSoftwareTimer. rewrite Hi.
  cbn [negb initialized last_millis total_millis].
  change (u32 4294967280) with 4294967280. change (u32 5) with 5.
  change (5 >=? 4294967280) with false. cbv iota.
  change (u32 (u32 (u32 (UINT32_MAX - 4294967280) + 5) + 1)) with 21.
  repeat split; reflexivity.
Qed.

Lemma polling_update_adds_wrapped_delta_witness :
  let s := begin 4294967000 static_init in
  let s1 := update 4294967280 s in
  let s2 := update 5 s1 in
  total_millis s1 = 280 /\ total_millis s2 = 301.
Proof.
  assert (Hl : is_u32 (last_millis (begin 4294967000 static_init)))
    by (split; [discriminate | reflexivity]).
  pose proof (polling_update_adds_wrapped_delta
                (begin 4294967000 static_init) 4294967280 eq_refl Hl) as H.
  cbv zeta in H. destruct H as (_ & _ & _ & _ & H3 & _).
  split; [reflexivity | rewrite H3; reflexivity].
Defined.

(** C8.  On the polling variant, a second [update] that sees the same
    narrow-counter sample as the first adds nothing: the state after the
    two calls, and in particular [total_millis], is the state after the
    first. *)
Theorem polling_update_twice_same_sample (s : state) (now : Z) :
  update now (update now s) = update now s /\
  total_millis (update now (update now s)) = total_millis (update now s).
Proof.
  assert (E : update now (update now s) = update now s).
  { unfold update, updateSoftwareTimer.
    destruct (initialized s) eqn:Hi; cbn [negb].
    - cbn [initialized last_millis total_millis negb].
      assert (G : (u32 now >=? u32 now) = true)
        by (rewrite Z.geb_leb; apply Z.leb_refl).
      rewrite G, Z.sub_diag. change (u32 0) with 0.
      rewrite Z.add_0_r, u64_idem. reflexivity.
    - rewrite Hi. reflexivity. }
  split; [exact E | now rewrite E].
Qed.
End Polling.

(** ** Formatting *)

Section TextLemmas.

Local Open Scope string_scope.

Lemma substring_whole (s : string) : forall n : nat,
  (String.length s <= n)%nat -> substring 0 n s = s.
Proof.
  induction s as [|c s IH]; intros [|n] H; cbn in *; try reflexivity; try lia.
  f_equal. apply IH. lia.
Qed.

Lemma decimal_aux_length (fuel : nat) : forall n acc,
  (String.length (decimal_aux fuel n acc) <= fuel + String.length acc)%nat.
Proof.
  induction fuel as [|fuel IH]; intros n acc; cbn [decimal_aux].
  - lia.
  - destruct (n / 10 =? 0)%Z.
    + cbn. lia.
    + specialize (IH (n / 10) (String (digit_char (n mod 10)) acc)).
      cbn [String.length] in IH. lia.
Qed.

Lemma decimal_length (n : Z) : (String.length (decimal n) <= 20)%nat.
Proof. unfold decimal. exact (decimal_aux_length 20 n ""). Qed.

Lemma decimal_padded_2_length (n : Z) :
  0 <= n < 100 -> String.length (decimal_padded 2 n) = 2%nat.
Proof.
  intros H. unfold decimal_padded, decimal. cbn [decimal_aux].
  destruct (n / 10 =? 0)%Z eqn:E1.
  - reflexivity.
  - assert (E2 : n / 10 / 10 = 0) by (apply Z.div_small; split; [apply Z.div_pos; lia | apply Z.div_lt_upper_bound; lia]).
    rewrite E2. reflexivity.
Qed.

Lemma string_length_app (a b : string) :
  String.length (a ++ b) = (String.length a + String.length b)%nat.
Proof. induction a; cbn; [reflexivity | now rewrite IHa]. Qed.

Lemma append_empty_r (a : string) : a ++ "" = a.
Proof. induction a; cbn; [reflexivity | now rewrite IHa]. Qed.


Lemma format_hms (h m s : Z) :
  format "%02lu:%02lu:%02lu" [h; m; s] = clock_text (u32 h) (u32 m) (u32 s).
Proof.
  cbn [format]. rewrite append_empty_r. reflexivity.
Qed.

Lemma format_days_hms (d h m s : Z) :
  format "%llu jours, %02lu:%02lu:%02lu" [d; h; m; s] =
  decimal (u64 d) ++ " jours, " ++ clock_text (u32 h) (u32 m) (u32 s).
Proof.
  cbn [format]. rewrite append_empty_r. reflexivity.
Qed.

Lemma clock_text_length (h m s : Z) :
  0 <= h < 100 -> 0 <= m < 100 -> 0 <= s < 100 ->
  String.length (clock_text h m s) = 8%nat.
Proof.
  intros Hh Hm Hs. unfold clock_text.
  rewrite !string_length_app, !decimal_padded_2_length by assumption.
  reflexivity.
Qed.

Lemma snprintf_hms (h m s : Z) :
  0 <= h < 100 -> 0 <= m < 100 -> 0 <= s < 100 ->
  snprintf 64 "%02lu:%02lu:%02lu" [h; m; s] = clock_text h m s.
Proof.
  intros Hh Hm Hs. unfold snprintf. rewrite format_hms.
  rewrite !u32_small by (unfold is_u32; lia).
  apply substring_whole. rewrite clock_text_length by assumption.
  cbn. lia.
Qed.

Lemma snprintf_days_hms (d h m s : Z) :
  is_u64 d -> 0 <= h < 100 -> 0 <= m < 100 -> 0 <= s < 100 ->
  snprintf 64 "%llu jours, %02lu:%02lu:%02lu" [d; h; m; s] =
  decimal d ++ " jours, " ++ clock_text h m s.
Proof.
  intros Hd Hh Hm Hs. unfold snprintf. rewrite format_days_hms.
  rewrite !u32_small by (unfold is_u32; lia).
  rewrite u64_small by assumption.
  apply substring_whole.
  rewrite !string_length_app, clock_text_length by assumption.
  pose proof (decimal_length d).
  change (String.length " jours, ") with 8%nat.
  change (64 - 1)%nat with 63%nat. lia.
Qed.

End TextLemmas.

Section Formatting.

Context {St : Type} {B : Backend St}.

Lemma getFormattedTime_fields (s : St) (now : Z) :
  let ts := snd (getSeconds now s) in
  getFormattedTime now s =
  (fst (getSeconds now s),
   (ts / 86400, ts mod 86400 / 3600, ts mod 86400 mod 3600 / 60,
    ts mod 86400 mod 3600 mod 60)).
Proof.
  unfold getFormattedTime. destruct (getSeconds now s) as [s' ts]. cbn [fst snd].
  pose proof (Z.mod_pos_bound ts 86400 eq_refl) as H1.
  pose proof (Z.mod_pos_bound (ts mod 86400) 3600 eq_refl) as H2.
  pose proof (Z.mod_pos_bound (ts mod 86400 mod 3600) 60 eq_refl) as H3.
  assert (0 <= ts mod 86400 / 3600 < 24)
    by (split; [apply Z.div_pos | apply Z.div_lt_upper_bound]; lia).
  assert (0 <= ts mod 86400 mod 3600 / 60 < 60)
    by (split; [apply Z.div_pos | apply Z.div_lt_upper_bound]; lia).
  rewrite !u32_small by (unfold is_u32; lia).
  reflexivity.
Qed.

(** C7 (amended).  [getFormattedTime] splits the seconds returned by
    [getSeconds] by integer division and remainder by 86400, 3600 and 60;
    [getFormattedString] prints them as [HH:MM:SS], preceded by the number
    of days and the word "jours" exactly when the number of days is
    positive; for 90061 elapsed seconds the fields are 1, 1, 1, 1 and the
    text is "1 jours, 01:01:01". *)
Theorem formatted_time_and_french_string (s : St) (now : Z) :
  let ts := snd (getSeconds now s) in
  let d := ts / 86400 in
  let h := ts mod 86400 / 3600 in
  let m := ts mod 86400 mod 3600 / 60 in
  let sec := ts mod 86400 mod 3600 mod 60 in
  snd (getFormattedTime now s) = (d, h, m, sec) /\
  (is_u64 ts ->
   snd (getFormattedString now s) =
   if d >? 0 then (decimal d ++ " jours, " ++ clock_text h m sec)%string
   else clock_text h m sec) /\
  (ts = 90061 ->
   snd (getFormattedTime now s) = (1, 1, 1, 1) /\
   snd (getFormattedString now s) = "1 jours, 01:01:01"%string).
Proof.
  intros ts d h m sec.
  pose proof (getFormattedTime_fields s now) as E. cbv zeta in E.
  fold ts in E. fold d h m sec in E.
  assert (Hh : 0 <= h < 100 /\ 0 <= m < 100 /\ 0 <= sec < 100).
  { subst h m sec.
    pose proof (Z.mod_pos_bound ts 86400 eq_refl).
    pose proof (Z.mod_pos_bound (ts mod 86400) 3600 eq_refl).
    pose proof (Z.mod_pos_bound (ts mod 86400 mod 3600) 60 eq_refl).
    repeat split; try (apply Z.div_pos; lia);
      try (apply Z.div_lt_upper_bound; lia); lia. }
  destruct Hh as (Hh & Hm & Hs).
  assert (G : is_u64 ts ->
   snd (getFormattedString now s) =
   if d >? 0 then (decimal d ++ " jours, " ++ clock_text h m sec)%string
   else clock_text h m sec).
  { intros Hts. unfold getFormattedString. rewrite E.
    destruct (d >? 0); cbn [snd].
    - apply snprintf_days_hms; try assumption.
      unfold is_u64 in *. subst d. split.
      + apply Z.div_pos; lia.
      + apply Z.div_lt_upper_bound; lia.
    - apply snprintf_hms; assumption. }
  split; [| split].
  - rewrite E. reflexivity.
  - exact G.
  - intros Hts. split.
    + rewrite E. subst d h m sec. rewrite Hts. reflexivity.
    + rewrite G by (rewrite Hts; split; [discriminate | reflexivity]).
      subst d h m sec. rewrite Hts. reflexivity.
Qed.

End Formatting.

Lemma formatted_time_and_french_string_witness :
  let s := OnESP32.mkState true None 90061000000 in
  snd (getSeconds 0 s) = 90061 /\
  snd (getFormattedTime 0 s) = (1, 1, 1, 1) /\
  snd (getFormattedString 0 s) = "1 jours, 01:01:01"%string.
Proof.
  split; [reflexivity |].
  exact (proj2 (proj2 (formatted_time_and_french_string
                         (OnESP32.mkState true None 90061000000) 0)) eq_refl).
Defined.

(** C7 as stated fails: at 90061 elapsed seconds the text is not
    "1 days, 01:01:01". *)
Lemma formatted_string_is_not_english :
  let s := OnESP32.mkState true None 90061000000 in
  snd (getSeconds 0 s) = 90061 /\
  snd (getFormattedTime 0 s) = (1, 1, 1, 1) /\
  snd (getFormattedString 0 s) <> "1 days, 01:01:01"%string.
Proof.
  repeat split. vm_compute. discriminate.
Qed.

(** ** Reading right after [reset] *)

Lemma esp32_read_after_reset (s : OnESP32.state) (now now' : Z) :
  snd (OnESP32.getMicroseconds now' (OnESP32.reset now s)) = 0.
Proof.
  unfold OnESP32.getMicroseconds, OnESP32.reset. cbn.
  now destruct (OnESP32.initialized s).
Qed.

Lemma polling_read_after_reset (s : OnOther.state) (now : Z) :
  snd (OnOther.getMicroseconds now (OnOther.reset now s)) = 0.
Proof.
  unfold OnOther.getMicroseconds, OnOther.updateSoftwareTimer, OnOther.reset.
  cbn [OnOther.initialized OnOther.last_millis OnOther.total_millis].
  destruct (OnOther.initialized s); cbn [negb snd]; [| reflexivity].
  cbn [OnOther.total_millis].
  assert (G : (u32 now >=? u32 now) = true)
    by (rewrite Z.geb_leb; apply Z.leb_refl).
  rewrite G, Z.sub_diag. reflexivity.
Qed.

(** C1 (the code departs from it on ESP8266).  After [reset] the ESP8266
    variant has [overflow_counter = 0] and [last_micros] equal to the
    current [micros()] sample, and the next read rebuilds
    [(high_part << 32) | current_micros] from the raw sample: it returns
    the value of [micros()] itself, whatever it is, instead of the time
    elapsed since the reset. *)
Theorem esp8266_read_after_reset_is_raw_sample (s : OnESP8266.state) (now : Z) :
  OnESP8266.initialized s = true ->
  snd (OnESP8266.getMicroseconds now (OnESP8266.reset now s)) = u32 now.
Proof.
  intros Hi.
  unfold OnESP8266.getMicroseconds, OnESP8266.updateTime, OnESP8266.reset.
  cbn [OnESP8266.initialized OnESP8266.last_micros OnESP8266.overflow_counter
       OnESP8266.total_micros OnESP8266.timer1].
  rewrite Hi. cbn [negb snd OnESP8266.total_micros].
  rewrite Z.ltb_irrefl. reflexivity.
Qed.

Lemma esp8266_read_after_reset_is_raw_sample_witness :
  let s := OnESP8266.mkState true 0 5000000 5000000 OnESP8266.timer1_off in
  OnESP8266.initialized s = true /\
  snd (OnESP8266.getMicroseconds 5000050 (OnESP8266.reset 5000050 s)) = 5000050.
Proof.
  split; [reflexivity |].
  exact (esp8266_read_after_reset_is_raw_sample
           (OnESP8266.mkState true 0 5000000 5000000 OnESP8266.timer1_off)
           5000050 eq_refl).
Defined.

(** When [micros()] wraps between the [reset] and the read, 21
    microseconds apart, the value read is even above one full period of the
    narrow counter. *)
Lemma esp8266_read_after_reset_over_one_period :
  let s := OnESP8266.mkState true 0 100 100 OnESP8266.timer1_off in
  snd (OnESP8266.getMicroseconds 5 (OnESP8266.reset 4294967280 s))
  = 2 ^ 32 + 5.
Proof. vm_compute. reflexivity. Qed.

(** ** Successive reads *)

Lemma esp32_ticks (n : nat) : forall s : OnESP32.state,
  is_u64 (OnESP32.time_fct_micros s) ->
  OnESP32.time_fct_micros s + Z.of_nat n < 2 ^ 64 ->
  OnESP32.time_fct_micros (Nat.iter n OnESP32.timerISR s)
  = OnESP32.time_fct_micros s + Z.of_nat n /\
  OnESP32.initialized (Nat.iter n OnESP32.timerISR s) = OnESP32.initialized s.
Proof.
  induction n as [|n IH]; intros s Hs Hn.
  - cbn. split; [lia | reflexivity].
  - rewrite Nat2Z.inj_succ in Hn |- *.
    destruct (IH s Hs ltac:(lia)) as [IH1 IH2].
    rewrite Nat.iter_succ. remember (Nat.iter n OnESP32.timerISR s) as s' eqn:Es'.
    unfold OnESP32.timerISR.
    cbn [OnESP32.time_fct_micros OnESP32.initialized].
    rewrite IH1. split; [| exact IH2].
    unfold is_u64 in Hs. rewrite u64_small by (unfold is_u64; lia). lia.
Qed.

(** On ESP32, a read never returns less than an earlier read, however many
    timer interrupts ran in between (short of 2^64 microseconds). *)
Lemma esp32_reads_monotone (s : OnESP32.state) (n : nat) (now now' : Z) :
  is_u64 (OnESP32.time_fct_micros s) ->
  OnESP32.time_fct_micros s + Z.of_nat n < 2 ^ 64 ->
  snd (OnESP32.getMicroseconds now s)
  <= snd (OnESP32.getMicroseconds now' (Nat.iter n OnESP32.timerISR s)).
Proof.
  intros Hs Hn. destruct (esp32_ticks n s Hs Hn) as [E1 E2].
  unfold OnESP32.getMicroseconds. rewrite E1, E2.
  destruct (OnESP32.initialized s); cbn; lia.
Qed.

Lemma polling_refresh (s : OnOther.state) (now : Z) :
  OnOther.initialized s = true ->
  is_u32 (OnOther.last_millis s) ->
  exists delta, is_u32 delta /\
    OnOther.updateSoftwareTimer now s
    = OnOther.mkState true (u32 now) (u64 (OnOther.total_millis s + delta)).
Proof.
  intros Hi Hl. destruct (updateSoftwareTimer_delta s now Hi Hl) as [E D].
  eexists. split; [exact D | exact E].
Qed.

(** On the polling variant, a read never returns less than the read before
    it (short of 2^64 microseconds). *)
Lemma polling_reads_monotone (s : OnOther.state) (now1 now2 : Z) :
  is_u32 (OnOther.last_millis s) ->
  0 <= OnOther.total_millis s ->
  (OnOther.total_millis s + 2 ^ 33) * 1000 < 2 ^ 64 ->
  let (s1, t1) := OnOther.getMicroseconds now1 s in
  let (s2, t2) := OnOther.getMicroseconds now2 s1 in
  t1 <= t2.
Proof.
  intros Hl Ht Hb.
  destruct (OnOther.initialized s) eqn:Hi.
  - destruct (polling_refresh s now1 Hi Hl) as (d1 & D1 & E1).
    unfold OnOther.getMicroseconds at 1. rewrite Hi. cbn [negb].
    rewrite E1. clear E1.
    set (s1 := OnOther.mkState true (u32 now1) (u64 (OnOther.total_millis s + d1))).
    assert (Hl1 : is_u32 (OnOther.last_millis s1)) by apply u32_range.
    destruct (polling_refresh s1 now2 eq_refl Hl1) as (d2 & D2 & E2).
    unfold OnOther.getMicroseconds. change (OnOther.initialized s1) with true.
    cbn [negb]. rewrite E2. clear E2.
    cbn [OnOther.total_millis s1]. subst s1. cbn [OnOther.total_millis].
    unfold is_u32 in D1, D2.
    rewrite (u64_small (OnOther.total_millis s + d1)) by (unfold is_u64; lia).
    rewrite (u64_small (OnOther.total_millis s + d1 + d2)) by (unfold is_u64; lia).
    rewrite !u64_small by (unfold is_u64; lia). lia.
  - unfold OnOther.getMicroseconds. rewrite Hi. cbn [negb]. rewrite Hi. cbn. lia.
Qed.

(** C2 (the code departs from it on ESP8266).  [micros()] wraps between two
    reads and the overflow interrupt runs before the second one: the read
    counts the wrap a second time because the new sample is below
    [last_micros], and the read after it, which counts it once, returns
    less. *)
Theorem esp8266_reads_can_decrease :
  let s0 := OnESP8266.begin 0 OnESP8266.static_init in
  let (s1, t0) := OnESP8266.getMicroseconds 4294967280 s0 in
  let s2 := OnESP8266.microsOverflowISR s1 in
  let (s3, t1) := OnESP8266.getMicroseconds 5 s2 in
  let (s4, t2) := OnESP8266.getMicroseconds 10 s3 in
  t0 = 4294967280 /\ t1 = 8589934597 /\ t2 = 4294967306 /\ t2 < t1.
Proof. vm_compute. repeat split. Qed.

(** The same without any interrupt: the wrap is seen by one read only. *)
Lemma esp8266_unserviced_wrap_is_forgotten :
  let s0 := OnESP8266.begin 0 OnESP8266.static_init in
  let (s1, t0) := OnESP8266.getMicroseconds 4294967280 s0 in
  let (s2, t1) := OnESP8266.getMicroseconds 5 s1 in
  let (s3, t2) := OnESP8266.getMicroseconds 10 s2 in
  t0 = 4294967280 /\ t1 = 4294967301 /\ t2 = 10 /\ t2 < t1.
Proof. vm_compute. repeat split. Qed.

(** ** Binary64 rounding in [getSecondsPrecise] *)

Section Binary64.

Lemma digits2_pos_bounds (p : positive) :
  2 ^ (Zpos (digits2_pos p) - 1) <= Zpos p < 2 ^ Zpos (digits2_pos p).
Proof.
  induction p as [p IH | p IH |]; cbn [digits2_pos].
  - rewrite Pos2Z.inj_succ.
    replace (Z.succ (Zpos (digits2_pos p)) - 1) with (Z.succ (Zpos (digits2_pos p) - 1)) by lia.
    rewrite !Z.pow_succ_r by lia. lia.
  - rewrite Pos2Z.inj_succ.
    replace (Z.succ (Zpos (digits2_pos p)) - 1) with (Z.succ (Zpos (digits2_pos p) - 1)) by lia.
    rewrite !Z.pow_succ_r by lia. lia.
  - cbn. lia.
Qed.

Lemma Zdigits2_unique (m d : Z) :
  2 ^ (d - 1) <= m < 2 ^ d -> 1 <= d -> Zdigits2 m = d.
Proof.
  intros H Hd.
  assert (0 < m) by (pose proof (Z.pow_pos_nonneg 2 (d - 1)); lia).
  destruct m as [|p|p]; try lia. cbn [Zdigits2].
  pose proof (digits2_pos_bounds p) as B.
  set (d' := Zpos (digits2_pos p)) in *.
  destruct (Z.lt_trichotomy d d') as [L | [E | L]]; [| exact (eq_sym E) |].
  - assert (2 ^ d <= 2 ^ (d' - 1)) by (apply Z.pow_le_mono_r; lia). lia.
  - assert (2 ^ d' <= 2 ^ (d - 1)) by (apply Z.pow_le_mono_r; lia). lia.
Qed.

Lemma shr_1_m (mrs : shr_record) :
  0 <= shr_m mrs -> shr_m (shr_1 mrs) = shr_m mrs / 2.
Proof.
  destruct mrs as [m r s]. cbn [shr_m]. intros H.
  destruct m as [|[p|p|]|p]; cbn [shr_1 shr_m]; try lia.
  - reflexivity.
  - rewrite Pos2Z.inj_xI. apply Z.div_unique with (r := 1); lia.
  - rewrite Pos2Z.inj_xO. apply Z.div_unique with (r := 0); lia.
  - reflexivity.
Qed.

Lemma shr_m_iter (p : positive) : forall mrs : shr_record,
  0 <= shr_m mrs ->
  shr_m (iter_pos shr_1 p mrs) = shr_m mrs / 2 ^ Zpos p.
Proof.
  induction p as [p IH | p IH |]; intros mrs H; cbn [iter_pos].
  - assert (H1 : 0 <= shr_m (shr_1 mrs))
      by (rewrite shr_1_m by assumption; apply Z.div_pos; lia).
    assert (H2 : 0 <= shr_m (iter_pos shr_1 p (shr_1 mrs)))
      by (rewrite IH by assumption; apply Z.div_pos; [assumption | apply Z.pow_pos_nonneg; lia]).
    rewrite IH, IH, shr_1_m by assumption.
    assert (P : 0 < 2 ^ Zpos p) by (apply Z.pow_pos_nonneg; lia).
    rewrite !Z.div_div by lia.
    f_equal. replace (Zpos p~1) with (1 + Zpos p + Zpos p) by lia.
    rewrite !Z.pow_add_r by lia. change (2 ^ 1) with 2. ring.
  - assert (H2 : 0 <= shr_m (iter_pos shr_1 p mrs))
      by (rewrite IH by assumption; apply Z.div_pos; [assumption | apply Z.pow_pos_nonneg; lia]).
    rewrite IH, IH by assumption.
    assert (P : 0 < 2 ^ Zpos p) by (apply Z.pow_pos_nonneg; lia).
    rewrite !Z.div_div by lia.
    f_equal. replace (Zpos p~0) with (Zpos p + Zpos p) by lia.
    rewrite !Z.pow_add_r by lia. reflexivity.
  - now rewrite shr_1_m.
Qed.

Lemma shr_m_of_loc (m : Z) (l : location) : shr_m (shr_record_of_loc m l) = m.
Proof. destruct l as [|[| |]]; reflexivity. Qed.

Lemma round_nearest_even_cases (m : Z) (l : location) :
  round_nearest_even m l = m \/ round_nearest_even m l = m + 1.
Proof.
  destruct l as [|[| |]]; cbn [round_nearest_even]; auto.
  destruct (Z.even m); auto.
Qed.

(** The first component of [shr_fexp]: a shift right by the distance to the
    target exponent. *)
Lemma shr_fexp_m (m e : Z) (l : location) (n : Z) :
  0 <= m ->
  n = fexp 53 1024 (Zdigits2 m + e) - e ->
  0 <= n ->
  shr_m (fst (shr_fexp 53 1024 m e l)) = m / 2 ^ n /\
  snd (shr_fexp 53 1024 m e l) = e + n.
Proof.
  intros Hm Hn Hn0. unfold shr_fexp. rewrite <- Hn.
  destruct n as [|p|p]; try lia; cbn [shr fst snd].
  - rewrite shr_m_of_loc, Z.div_1_r. split; [reflexivity | lia].
  - rewrite shr_m_iter by (rewrite shr_m_of_loc; exact Hm).
    rewrite shr_m_of_loc. split; reflexivity.
Qed.


Lemma fexp_normal (x : Z) : -1021 <= x -> fexp 53 1024 x = x - 53.
Proof. unfold fexp, emin. lia. Qed.

(** Rounding a mantissa of at least 53 bits, in the range of the normal
    numbers: the result has exactly 53 bits and is one of the two
    neighbours of the input at the new exponent. *)
Lemma binary_round_aux_faithful (mx ex : Z) (lx : location) (d : Z) :
  2 ^ (d - 1) <= mx < 2 ^ d ->
  53 <= d ->
  -1021 <= d + ex <= 1023 ->
  exists (m : positive) (k : Z),
    binary_round_aux 53 1024 false mx ex lx = S754_finite false m (ex + k) /\
    2 ^ 52 <= Zpos m < 2 ^ 53 /\
    d - 53 <= k <= d - 52 /\
    (Zpos m - 1) * 2 ^ k <= mx /\
    mx + 1 <= (Zpos m + 1) * 2 ^ k.
Proof.
  intros Hmx Hd Hr.
  assert (Dg : Zdigits2 mx = d) by (apply Zdigits2_unique; lia).
  assert (Pd : 0 < 2 ^ (d - 1)) by (apply Z.pow_pos_nonneg; lia).
  set (n := d - 53).
  assert (Pn : 0 < 2 ^ n) by (apply Z.pow_pos_nonneg; lia).
  assert (E1 : 2 ^ (d - 1) = 2 ^ 52 * 2 ^ n)
    by (rewrite <- Z.pow_add_r by lia; f_equal; lia).
  assert (E2 : 2 ^ d = 2 ^ 53 * 2 ^ n)
    by (rewrite <- Z.pow_add_r by lia; f_equal; lia).
  assert (E3 : 2 ^ (n + 1) = 2 * 2 ^ n)
    by (rewrite Z.pow_add_r by lia; change (2 ^ 1) with 2; ring).
  unfold binary_round_aux.
  destruct (shr_fexp_m mx ex lx n) as [S1 S2];
    [lia | rewrite Dg, fexp_normal by lia; lia | lia |].
  destruct (shr_fexp 53 1024 mx ex lx) as [mrs' e']. cbn [fst snd] in S1, S2.
  set (m1 := mx / 2 ^ n) in *.
  assert (Q1 : m1 * 2 ^ n <= mx < m1 * 2 ^ n + 2 ^ n).
  { pose proof (Z.div_mod mx (2 ^ n) ltac:(lia)) as Q.
    pose proof (Z.mod_pos_bound mx (2 ^ n) Pn). fold m1 in Q. lia. }
  assert (B1 : 2 ^ 52 <= m1 < 2 ^ 53).
  { split.
    - apply Z.div_le_lower_bound; lia.
    - apply Z.div_lt_upper_bound; lia. }
  set (m2 := round_nearest_even (shr_m mrs') (loc_of_shr_record mrs')).
  assert (R : m2 = m1 \/ m2 = m1 + 1)
    by (subst m2; rewrite S1; apply round_nearest_even_cases).
  destruct (Z.eq_dec m2 (2 ^ 53)) as [C | C].
  - (* the rounding carried into a 54th bit *)
    assert (D2 : Zdigits2 m2 = 54) by (apply Zdigits2_unique; [rewrite C; cbn; lia | lia]).
    destruct (shr_fexp_m m2 e' loc_Exact 1) as [T1 T2];
      [lia | rewrite D2, fexp_normal by lia; lia | lia |].
    destruct (shr_fexp 53 1024 m2 e' loc_Exact) as [mrs'' e''].
    cbn [fst snd] in T1, T2. rewrite T1, C. change (2 ^ 53 / 2 ^ 1) with (2 ^ 52).
    change (2 ^ 52) with (Zpos (Z.to_pos (2 ^ 52))) at 1. cbv iota.
    assert (L : (e'' <=? 1024 - 53) = true) by (apply Z.leb_le; lia).
    rewrite L. exists (Z.to_pos (2 ^ 52)), (n + 1).
    split; [f_equal; lia |].
    change (Zpos (Z.to_pos (2 ^ 52))) with (2 ^ 52).
    rewrite E3. subst n. repeat split; try lia.
  - assert (D2 : Zdigits2 m2 = 53) by (apply Zdigits2_unique; cbn in *; lia).
    destruct (shr_fexp_m m2 e' loc_Exact 0) as [T1 T2];
      [lia | rewrite D2, fexp_normal by lia; lia | lia |].
    destruct (shr_fexp 53 1024 m2 e' loc_Exact) as [mrs'' e''].
    cbn [fst snd] in T1, T2. rewrite Z.div_1_r in T1. rewrite T1.
    destruct m2 as [|p|p] eqn:Em2; try (cbn in *; lia).
    assert (L : (e'' <=? 1024 - 53) = true) by (apply Z.leb_le; lia).
    rewrite L. exists p, n.
    split; [f_equal; lia |].
    subst n. repeat split; try lia; destruct R as [R | R]; rewrite R; lia.
Qed.


Lemma Pos_iter_xO (n p : positive) :
  Zpos (Pos.iter xO p n) = Zpos p * 2 ^ Zpos n.
Proof.
  induction n as [|n IH] using Pos.peano_ind.
  - cbn [Pos.iter]. rewrite Pos2Z.inj_xO. change (2 ^ 1) with 2. ring.
  - rewrite Pos.iter_succ, Pos2Z.inj_xO, IH, Pos2Z.inj_succ, Z.pow_succ_r by lia.
    ring.
Qed.

(** [(double)v] for [0 < v < 2^64]: a 53-bit mantissa [m] at exponent
    [k - s] with [|m * 2^k - v * 2^s| <= 2^k]. *)
Lemma double_of_u64_faithful (v : Z) :
  0 < v < 2 ^ 64 ->
  exists (m : positive) (k s : Z),
    double_of_u64 v = S754_finite false m (k - s) /\
    2 ^ 52 <= Zpos m < 2 ^ 53 /\
    0 <= k <= 12 /\ 0 <= s <= 52 /\
    (Zpos m - 1) * 2 ^ k <= v * 2 ^ s /\
    v * 2 ^ s + 1 <= (Zpos m + 1) * 2 ^ k.
Proof.
  intros Hv. destruct v as [|p|p]; try lia.
  unfold double_of_u64, binary_normalize, binary_round.
  pose proof (digits2_pos_bounds p) as B.
  set (d := Zpos (digits2_pos p)) in *.
  assert (Hd : 1 <= d <= 64).
  { split; [subst d; lia |].
    destruct (Z.le_gt_cases d 64) as [L | L]; [exact L |].
    assert (2 ^ 64 <= 2 ^ (d - 1)) by (apply Z.pow_le_mono_r; lia). lia. }
  rewrite fexp_normal by lia.
  unfold shl_align.
  destruct (Z.le_gt_cases 53 d) as [L | L].
  - (* no left shift *)
    assert (E : d + 0 - 53 - 0 = d - 53) by lia. rewrite E.
    assert (M : (let '(mz, ez) :=
                   match d - 53 with
                   | Z.neg dd => (Pos.iter xO p dd, d + 0 - 53)
                   | _ => (p, 0)
                   end in binary_round_aux 53 1024 false (Zpos mz) ez loc_Exact)
                = binary_round_aux 53 1024 false (Zpos p) 0 loc_Exact).
    { destruct (d - 53) eqn:Ed; try reflexivity. lia. }
    rewrite M. clear M E.
    destruct (binary_round_aux_faithful (Zpos p) 0 loc_Exact d)
      as (m & k & R & Bm & Bk & Lo & Hi); try lia.
    exists m, k, 0. rewrite R, Z.mul_1_r. cbn [Z.add].
    replace (k - 0) with k by lia.
    repeat split; try lia; reflexivity.
  - (* the mantissa is shifted left to 53 bits *)
    set (s := 53 - d).
    assert (E : d + 0 - 53 - 0 = Zneg (Z.to_pos s)) by (subst s; lia).
    rewrite E.
    assert (Ps : Zpos (Pos.iter xO p (Z.to_pos s)) = Zpos p * 2 ^ s)
      by (rewrite Pos_iter_xO, Z2Pos.id by (subst s; lia); reflexivity).
    rewrite Ps.
    assert (P1 : 2 ^ (d - 1) * 2 ^ s = 2 ^ 52)
      by (rewrite <- Z.pow_add_r by (subst s; lia); f_equal; subst s; lia).
    assert (P2 : 2 ^ d * 2 ^ s = 2 ^ 53)
      by (rewrite <- Z.pow_add_r by (subst s; lia); f_equal; subst s; lia).
    assert (Pp : 0 < 2 ^ s) by (apply Z.pow_pos_nonneg; subst s; lia).
    destruct (binary_round_aux_faithful (Zpos p * 2 ^ s) (d + 0 - 53) loc_Exact 53)
      as (m & k & R & Bm & Bk & Lo & Hi); try lia.
    { change (2 ^ (53 - 1)) with (2 ^ 52). nia. }
    exists m, k, s. rewrite R.
    replace (d + 0 - 53 + k) with (k - s) by (subst s; lia).
    subst s. repeat split; try lia.
Qed.


Lemma one_million_bits :
  one_million = S754_finite false 8589934592000000 (-33).
Proof. vm_compute. reflexivity. Qed.

(** Division of a normal double by [1000000.0]: the quotient [q] of the
    mantissas, rounded to 53 bits. *)
Lemma double_div_million_faithful (ma : positive) (ea : Z) :
  2 ^ 52 <= Zpos ma < 2 ^ 53 ->
  -52 <= ea <= 12 ->
  exists (m : positive) (q k : Z),
    double_div (S754_finite false ma ea) one_million
    = S754_finite false m (ea - 20 + k) /\
    2 ^ 52 <= Zpos m < 2 ^ 53 /\
    0 <= k <= 2 /\
    q * 8589934592000000 <= Zpos ma * 2 ^ 53 < (q + 1) * 8589934592000000 /\
    (Zpos m - 1) * 2 ^ k <= q /\
    q + 1 <= (Zpos m + 1) * 2 ^ k.
Proof.
  intros Hm He. rewrite one_million_bits.
  unfold double_div, SFdiv, SFdiv_core_binary.
  rewrite (Zdigits2_unique (Zpos ma) 53) by (change (53 - 1) with 52; lia).
  change (Zdigits2 (Zpos 8589934592000000)) with 53.
  rewrite fexp_normal by lia.
  replace (Z.min (53 + ea - (53 + -33) - 53) (ea - -33)) with (ea - 20) by lia.
  replace (ea - -33 - (ea - 20)) with 53 by lia.
  rewrite Z.shiftl_mul_pow2 by lia.
  pose proof (Z_div_mod (Zpos ma * 2 ^ 53) 8589934592000000 eq_refl) as DM.
  destruct (Z.div_eucl (Zpos ma * 2 ^ 53) 8589934592000000) as [q r].
  destruct DM as [DM Hr]. cbn [xorb].
  assert (Bq : 2 ^ 52 <= q < 2 ^ 54) by lia.
  destruct (Z.lt_ge_cases q (2 ^ 53)) as [L | L].
  - destruct (binary_round_aux_faithful q (ea - 20)
                (new_location 8589934592000000 r) 53)
      as (m & k & R & Bm & Bk & Lo & Hi); try lia.
    exists m, q, k. rewrite R. repeat split; try lia.
  - destruct (binary_round_aux_faithful q (ea - 20)
                (new_location 8589934592000000 r) 54)
      as (m & k & R & Bm & Bk & Lo & Hi); try lia.
    exists m, q, k. rewrite R. repeat split; try lia.
Qed.

(** The arithmetic behind the error bound: two roundings to 53 bits, each
    off by at most one unit in the last place. *)
Lemma two_roundings_bound (v ma m q A S K W : Z) :
  0 < A -> 0 < S -> 0 < K -> 0 < W ->
  W * A * K = S * 2 ^ 20 ->
  (ma - 1) * A <= v * S ->
  v * S + 1 <= (ma + 1) * A ->
  q * 8589934592000000 <= ma * 2 ^ 53 < (q + 1) * 8589934592000000 ->
  (m - 1) * K <= q ->
  q + 1 <= (m + 1) * K ->
  2 ^ 52 <= m ->
  Z.abs (m * 1000000 - v * W) * 2 ^ 50 <= v * W.
Proof.
  intros HA HS HK HW HWAK Lo1 Hi1 Hq Lo2 Hi2 Hm.
  assert (Q1 : m * K * 1000000 <= ma * 2 ^ 20 + K * 1000000) by lia.
  assert (Q2 : ma * 2 ^ 20 <= m * K * 1000000 + K * 1000000) by lia.
  assert (R1 : m * K * 1000000 * A <= (ma * 2 ^ 20 + K * 1000000) * A)
    by (apply Z.mul_le_mono_nonneg_r; lia).
  assert (R2 : ma * 2 ^ 20 * A <= (m * K * 1000000 + K * 1000000) * A)
    by (apply Z.mul_le_mono_nonneg_r; lia).
  assert (KA : A <= A * K) by nia.
  assert (PAK : 0 < A * K) by nia.
  assert (Y : v * S * 2 ^ 20 = v * W * (A * K)) by (rewrite <- Z.mul_assoc, <- HWAK; ring).
  assert (D1 : (m * 1000000 - v * W) * (A * K) <= (1000000 + 2 ^ 20) * (A * K)) by nia.
  assert (D2 : - ((1000000 + 2 ^ 20) * (A * K)) <= (m * 1000000 - v * W) * (A * K)) by nia.
  assert (D3 : m * 1000000 - v * W <= 1000000 + 2 ^ 20)
    by (apply Z.mul_le_mono_pos_r with (p := A * K); assumption).
  assert (D4 : - (1000000 + 2 ^ 20) <= m * 1000000 - v * W).
  { apply Z.mul_le_mono_pos_r with (p := A * K); [assumption |].
    rewrite Z.mul_opp_l. exact D2. }
  lia.
Qed.


Lemma seconds_precise_mantissa (v : Z) :
  0 < v < 2 ^ 64 ->
  exists (m : positive) (E : Z),
    double_div (double_of_u64 v) one_million = S754_finite false m (- E) /\
    6 <= E <= 92 /\
    Z.abs (Zpos m * 1000000 - v * 2 ^ E) * 2 ^ 50 <= v * 2 ^ E.
Proof.
  intros Hv.
  destruct (double_of_u64_faithful v Hv)
    as (ma & k & s & R1 & Ba & Bk & Bs & Lo1 & Hi1).
  destruct (double_div_million_faithful ma (k - s) Ba ltac:(lia))
    as (m & q & k2 & R2 & Bm & Bk2 & Hq & Lo2 & Hi2).
  exists m, (s + 20 - k - k2). rewrite R1, R2.
  split; [f_equal; lia |]. split; [lia |].
  apply (two_roundings_bound v (Zpos ma) (Zpos m) q (2 ^ k) (2 ^ s) (2 ^ k2));
    try assumption; try (apply Z.pow_pos_nonneg; lia); try lia.
  rewrite <- !Z.pow_add_r by lia. f_equal. lia.
Qed.

(** [getSecondsPrecise] is within a relative error of [2^-50] of the exact
    quotient: [|r * 1000000 - v| <= v * 2^-50]. *)
Lemma seconds_precise_tolerance (v : Z) :
  is_u64 v ->
  let r := double_div (double_of_u64 v) one_million in
  is_finite_double r = true /\
  seconds_within_tolerance r v.
Proof.
  intros Hv r. unfold seconds_within_tolerance, is_u64 in *.
  destruct (Z.eq_dec v 0) as [Z0 | NZ].
  - subst v r. vm_compute. split; [reflexivity | discriminate].
  - destruct (seconds_precise_mantissa v ltac:(lia)) as (m & E & R & BE & H).
    subst r. rewrite R. split; [reflexivity |].
    unfold double_to_Q.
    assert (F : (0 <=? - E) = false) by (apply Z.leb_gt; lia).
    rewrite F, Z.opp_involutive.
    assert (PE : 0 < 2 ^ E) by (apply Z.pow_pos_nonneg; lia).
    apply Qabs.Qabs_Qle_condition.
    unfold QArith_base.Qle, QArith_base.Qopp, QArith_base.Qminus,
      QArith_base.Qplus, QArith_base.Qmult, QArith_base.Qopp,
      QArith_base.inject_Z.
    cbn [QArith_base.Qnum QArith_base.Qden].
    rewrite !Pos2Z.inj_mul, !Z2Pos.id by exact PE.
    change (Zpos (2 ^ 50)) with (2 ^ 50).
    lia.
Qed.

End Binary64.

(** ** Unit conversions *)

Section Conversions.

Context {St : Type} {B : Backend St}.

(** C6.  Whatever value [v] the call to [getMicroseconds] yields,
    [getMilliseconds] yields [v / 1000] and [getSeconds] yields
    [v / 1000000] (integer division), and [getSecondsPrecise] yields the
    binary64 quotient of [(double)v] by [1000000.0]; for a 64-bit [v] that
    quotient is a finite double [r] with [|r * 1000000 - v| <= v * 2^-50],
    that is, [r] is [v / 1000000] up to a relative error of [2^-50]. *)
Theorem unit_conversions (s : St) (now : Z) :
  let v := snd (getMicroseconds now s) in
  let r := snd (getSecondsPrecise now s) in
  getMilliseconds now s = (fst (getMicroseconds now s), v / 1000) /\
  getSeconds now s = (fst (getMicroseconds now s), v / 1000000) /\
  getSecondsPrecise now s
  = (fst (getMicroseconds now s), double_div (double_of_u64 v) one_million) /\
  (is_u64 v ->
   is_finite_double r = true /\
   seconds_within_tolerance r v).
Proof.
  unfold getMilliseconds, getSeconds, getSecondsPrecise.
  destruct (getMicroseconds now s) as [s' v]. cbn [fst snd].
  split; [reflexivity |]. split; [reflexivity |]. split; [reflexivity |].
  exact (seconds_precise_tolerance v).
Qed.

End Conversions.

Lemma unit_conversions_witness :
  let s := OnOther.mkState true 1000 41 in
  let v := snd (getMicroseconds 2500 s) in
  let r := snd (getSecondsPrecise 2500 s) in
  is_u64 v /\
  is_finite_double r = true /\
  seconds_within_tolerance r v.
Proof.
  assert (H : is_u64 (snd (getMicroseconds 2500 (OnOther.mkState true 1000 41))))
    by (vm_compute; split; [discriminate | reflexivity]).
  split; [exact H |].
  exact (proj2 (proj2 (proj2
           (unit_conversions (OnOther.mkState true 1000 41) 2500))) H).
Defined.

(** * Further properties of the code *)

(** ** The polling variant against true time *)

Section PollingTrueTime.

(** Both branches of the wrap test compute the unsigned 32-bit difference. *)
Lemma polling_delta_mod (current last : Z) :
  is_u32 current -> is_u32 last ->
  (if current >=? last then current - last
   else (UINT32_MAX - last) + current + 1)
  = (current - last) mod 2 ^ 32.
Proof.
  unfold is_u32, UINT32_MAX. intros Hc Hl.
  destruct (current >=? last) eqn:E.
  - apply Z.geb_le in E. symmetry. apply Z.mod_small. lia.
  - rewrite Z.geb_leb in E. apply Z.leb_gt in E.
    apply Z.mod_unique with (q := -1); lia.
Qed.

Lemma u32_sub (a b : Z) : (u32 a - u32 b) mod 2 ^ 32 = (a - b) mod 2 ^ 32.
Proof. unfold u32. now rewrite Zminus_mod_idemp_l, Zminus_mod_idemp_r. Qed.

Lemma u64_add_l (a b : Z) : u64 (u64 a + b) = u64 (a + b).
Proof. unfold u64. now rewrite Zplus_mod_idemp_l. Qed.

Lemma update_at_true_time (s : OnOther.state) (t t' : Z) :
  OnOther.initialized s = true ->
  OnOther.last_millis s = u32 t ->
  OnOther.update t' s
  = OnOther.mkState true (u32 t') (u64 (OnOther.total_millis s + (t' - t) mod 2 ^ 32)).
Proof.
  intros Hi Hl.
  assert (Hr : is_u32 (OnOther.last_millis s)) by (rewrite Hl; apply u32_range).
  destruct (updateSoftwareTimer_delta s t' Hi Hr) as [E _].
  rewrite E, polling_delta_mod, Hl, u32_sub by (assumption || apply u32_range).
  reflexivity.
Qed.

(** X1 (missed wraps).  An [update] at true time [t'] on a polling clock
    whose last sample was taken at true time [t] adds [(t' - t) mod 2^32]
    milliseconds: the exact gap when the poll comes less than 2^32 ms
    after the previous one, and the gap minus [k * 2^32] when [k] whole
    periods of [millis()] went by unobserved. *)
Theorem polling_update_adds_gap_modulo_period (s : OnOther.state) (t gap : Z) :
  OnOther.initialized s = true ->
  OnOther.last_millis s = u32 t ->
  0 <= gap ->
  OnOther.total_millis (OnOther.update (t + gap) s)
  = u64 (OnOther.total_millis s + (gap - gap / 2 ^ 32 * 2 ^ 32)) /\
  (gap < 2 ^ 32 ->
   OnOther.total_millis (OnOther.update (t + gap) s) = u64 (OnOther.total_millis s + gap)).
Proof.
  intros Hi Hl Hg.
  rewrite (update_at_true_time s t (t + gap) Hi Hl).
  cbn [OnOther.total_millis]. replace (t + gap - t) with gap by lia.
  split.
  - do 2 f_equal. rewrite Z.mod_eq by lia. lia.
  - intros Hlt. rewrite Z.mod_small by lia. reflexivity.
Qed.

Lemma polling_update_adds_gap_modulo_period_witness :
  let s := OnOther.begin 4294967000 OnOther.static_init in
  OnOther.total_millis (OnOther.update (4294967000 + (2 ^ 32 + 7)) s) = 7 /\
  OnOther.total_millis (OnOther.update (4294967000 + 500) s) = 500.
Proof.
  assert (H1 := polling_update_adds_gap_modulo_period
                  (OnOther.begin 4294967000 OnOther.static_init) 4294967000 (2 ^ 32 + 7)
                  eq_refl eq_refl ltac:(discriminate)).
  assert (H2 := polling_update_adds_gap_modulo_period
                  (OnOther.begin 4294967000 OnOther.static_init) 4294967000 500
                  eq_refl eq_refl ltac:(discriminate)).
  split.
  - rewrite (proj1 H1). reflexivity.
  - rewrite (proj2 H2 eq_refl). reflexivity.
Defined.

Lemma last_cons {A : Type} (l : list A) : forall x d : A,
  last (x :: l) d = last l x.
Proof.
  induction l as [|y l IH]; intros x d; [reflexivity |].
  change (last (x :: y :: l) d) with (last (y :: l) d).
  now rewrite !IH.
Qed.

Lemma poll_all_tracks (ts : list Z) : forall (t0 : Z) (s : OnOther.state),
  OnOther.initialized s = true ->
  OnOther.last_millis s = u32 t0 ->
  is_u64 (OnOther.total_millis s) ->
  paced t0 ts ->
  OnOther.initialized (poll_all ts s) = true /\
  OnOther.last_millis (poll_all ts s) = u32 (last ts t0) /\
  OnOther.total_millis (poll_all ts s) = u64 (OnOther.total_millis s + (last ts t0 - t0)).
Proof.
  induction ts as [|t ts IH]; intros t0 s Hi Hl Ht Hp.
  - cbn [poll_all fold_left last].
    rewrite Z.sub_diag, Z.add_0_r, u64_small by assumption. auto.
  - destruct Hp as [Hg Hp]. unfold poll_all. cbn [fold_left].
    fold (poll_all ts (OnOther.update t s)).
    rewrite (update_at_true_time s t0 t Hi Hl), Z.mod_small by lia.
    set (s1 := OnOther.mkState true (u32 t) (u64 (OnOther.total_millis s + (t - t0)))).
    destruct (IH t s1 eq_refl eq_refl (u64_range _) Hp) as (I1 & I2 & I3).
    rewrite last_cons. repeat split; try assumption.
    rewrite I3. subst s1. cbn [OnOther.total_millis].
    rewrite u64_add_l. f_equal. lia.
Qed.

(** X2 (widening).  Start the polling clock (by [begin] or [reset]) at true
    time [t0] and poll it at instants that are each less than 2^32 ms after
    the one before: [total_millis] has grown by the true time elapsed
    between [t0] and the last poll (modulo 2^64), however many times
    [millis()] wrapped in between. *)
Theorem polling_total_is_true_elapsed_time (ts : list Z) (t0 : Z) (s : OnOther.state) :
  OnOther.initialized s = true ->
  OnOther.last_millis s = u32 t0 ->
  is_u64 (OnOther.total_millis s) ->
  paced t0 ts ->
  OnOther.total_millis (poll_all ts s) = u64 (OnOther.total_millis s + (last ts t0 - t0)) /\
  OnOther.last_millis (poll_all ts s) = u32 (last ts t0).
Proof.
  intros Hi Hl Ht Hp.
  destruct (poll_all_tracks ts t0 s Hi Hl Ht Hp) as (_ & I2 & I3). auto.
Qed.

Lemma polling_total_is_true_elapsed_time_witness :
  let ts := [4000000000; 6000000000; 9000000000; 13000000000] in
  let s := OnOther.begin 1000 OnOther.static_init in
  paced 1000 ts /\
  OnOther.total_millis (poll_all ts s) = 13000000000 - 1000 /\
  OnOther.last_millis (poll_all ts s) = 13000000000 - 3 * 2 ^ 32.
Proof.
  assert (Hp : paced 1000 [4000000000; 6000000000; 9000000000; 13000000000])
    by (cbn; repeat split; (discriminate || reflexivity || exact I)).
  split; [exact Hp |].
  assert (Ht : is_u64 (OnOther.total_millis (OnOther.begin 1000 OnOther.static_init)))
    by (split; [discriminate | reflexivity]).
  destruct (polling_total_is_true_elapsed_time
              [4000000000; 6000000000; 9000000000; 13000000000] 1000
              (OnOther.begin 1000 OnOther.static_init) eq_refl eq_refl Ht Hp) as [E1 E2].
  split; [rewrite E1 | rewrite E2]; reflexivity.
Defined.

(** X3 (milliseconds).  On the polling variant the multiplication by 1000
    in [getMicroseconds] and the division by 1000 in [getMilliseconds]
    cancel: as long as [total_millis * 1000] fits in 64 bits,
    [getMilliseconds] returns [total_millis] itself and [getMicroseconds]
    a multiple of 1000. *)
Theorem polling_milliseconds_are_total_millis (s : OnOther.state) (now : Z) :
  OnOther.initialized s = true ->
  OnOther.total_millis (OnOther.update now s) * 1000 < 2 ^ 64 ->
  snd (getMilliseconds now s) = OnOther.total_millis (OnOther.update now s) /\
  snd (getMicroseconds (St := clock OtherArch) now s) = 1000 * OnOther.total_millis (OnOther.update now s) /\
  fst (getMilliseconds now s) = OnOther.update now s.
Proof.
  intros Hi Hb. unfold getMilliseconds. cbn [getMicroseconds backend_of Other_backend].
  unfold OnOther.getMicroseconds. rewrite Hi. cbn [negb fst snd].
  fold (OnOther.update now s).
  assert (H0 : 0 <= OnOther.total_millis (OnOther.update now s)).
  { unfold OnOther.update, OnOther.updateSoftwareTimer. rewrite Hi. cbn [negb OnOther.total_millis].
    apply u64_range. }
  rewrite u64_small by (unfold is_u64; lia).
  repeat split; try lia. now rewrite Z.div_mul by lia.
Qed.

Lemma polling_milliseconds_are_total_millis_witness :
  let s := OnOther.mkState true 4294967290 123456 in
  snd (getMilliseconds 4 s) = 123466 /\
  snd (getMicroseconds (St := clock OtherArch) 4 s) = 123466000.
Proof.
  destruct (polling_milliseconds_are_total_millis
              (OnOther.mkState true 4294967290 123456) 4 eq_refl eq_refl)
    as (E1 & E2 & _).
  split; [rewrite E1 | rewrite E2]; reflexivity.
Defined.

End PollingTrueTime.

(** ** Traces of calls and interrupts *)

Section Traces.

Variable p : platform.

Implicit Types (s : clock p) (now : Z).

Lemma update_keeps_flag s now : initialized (update now s) = initialized s.
Proof.
  destruct p; cbn [initialized update backend_of ESP32_backend ESP8266_backend
                   Other_backend].
  - reflexivity.
  - unfold OnESP8266.update, OnESP8266.updateTime.
    now destruct (OnESP8266.initialized s) eqn:E.
  - unfold OnOther.update, OnOther.updateSoftwareTimer.
    now destruct (OnOther.initialized s) eqn:E.
Qed.

(** The state a call leaves behind. *)
Lemma perform_state (c : call) s now :
  fst (perform c now s) =
  match c with
  | CBegin => begin now s
  | CReset => reset now s
  | CIsInitialized => s
  | _ => update now s
  end.
Proof.
  pose proof (getMicroseconds_state p s now) as G.
  destruct c; cbn [perform fst]; try reflexivity;
    unfold getFormattedString, getFormattedTime, getSeconds, getMilliseconds,
      getSecondsPrecise;
    destruct (getMicroseconds now s) as [s' v]; cbn [fst] in *; try exact G.
  destruct (_ >? 0); exact G.
Qed.

Lemma interrupt_keeps_flag s : initialized (interrupt p s) = initialized s.
Proof. destruct p; reflexivity. Qed.

Lemma step_keeps_initialized (e : event) s :
  initialized s = true -> initialized (step p s e) = true.
Proof.
  intros H. destruct e as [c now |]; cbn [step].
  - rewrite perform_state.
    destruct c; rewrite ?update_keeps_flag, ?reset_keeps_flag; try exact H.
    now rewrite begin_when_initialized.
  - now rewrite interrupt_keeps_flag.
Qed.

Lemma steps_keep_initialized (es : list event) : forall s,
  initialized s = true -> initialized (steps p es s) = true.
Proof.
  induction es as [|e es IH]; intros s H; [exact H |].
  apply IH, step_keeps_initialized, H.
Qed.

(** X4 (the flag is permanent).  Once [begin] has been called,
    [isInitialized] answers true after any further calls ([reset] and a
    second [begin] included) and any interrupts: nothing clears the flag. *)
Theorem initialized_is_never_cleared (es : list event) s now :
  isInitialized (steps p es (begin now s)) = true.
Proof.
  rewrite isInitialized_flag. apply steps_keep_initialized, begin_sets_flag.
Qed.

(** X5 (reads refresh).  Every read -- in microseconds, milliseconds,
    seconds, fractional seconds, fields or text -- leaves the clock in
    exactly the state that [update] with the same counter sample would. *)
Theorem every_read_refreshes_like_update s now :
  fst (getMicroseconds now s) = update now s /\
  fst (getMilliseconds now s) = update now s /\
  fst (getSeconds now s) = update now s /\
  fst (getSecondsPrecise now s) = update now s /\
  fst (getFormattedTime now s) = update now s /\
  fst (getFormattedString now s) = update now s.
Proof.
  pose proof (perform_state CGetMicroseconds s now) as H1.
  pose proof (perform_state CGetMilliseconds s now) as H2.
  pose proof (perform_state CGetSeconds s now) as H3.
  pose proof (perform_state CGetSecondsPrecise s now) as H4.
  pose proof (perform_state CGetFormattedTime s now) as H5.
  pose proof (perform_state CGetFormattedString s now) as H6.
  cbn [perform] in *.
  destruct (getMicroseconds now s), (getMilliseconds now s), (getSeconds now s),
    (getSecondsPrecise now s), (getFormattedTime now s),
    (getFormattedString now s).
  cbn [fst] in *. auto 7.
Qed.

(** What calls other than [begin] can do to a clock that was never begun:
    the flag stays down and what [begin] does not overwrite stays as at
    power-on. *)
Lemma unbegun_run (cs : list (call * Z)) : forall s,
  forallb (fun cn => negb (is_begin (fst cn))) cs = true ->
  initialized s = false ->
  (forall now, begin now s = begin now static_init) ->
  forall now, begin now (fst (run cs s)) = begin now static_init.
Proof.
  induction cs as [|[c n] cs IH]; intros s Hcs Hi Hb now; cbn [run].
  - apply Hb.
  - cbn [forallb fst] in Hcs. apply andb_prop in Hcs as [Hc Hcs].
    apply negb_true_iff in Hc.
    pose proof (perform_keeps_uninit p c n s Hi Hc) as Hi1.
    assert (Hb1 : forall now, begin now (fst (perform c n s)) = begin now static_init).
    { intros now1. rewrite perform_state.
      destruct c; try discriminate Hc; rewrite ?update_uninit by exact Hi;
        try apply Hb.
      clear - Hi Hb. specialize (Hb now1). revert Hb.
      destruct p; cbn in *.
      - unfold OnESP32.begin, OnESP32.reset.
        cbn [OnESP32.initialized OnESP32.timer OnESP32.time_fct_micros].
        rewrite Hi. reflexivity.
      - unfold OnESP8266.begin, OnESP8266.reset.
        cbn [OnESP8266.initialized OnESP8266.timer1]. rewrite Hi. trivial.
      - unfold OnOther.begin, OnOther.reset.
        cbn [OnOther.initialized]. rewrite Hi. trivial. }
    destruct (perform c n s) as [s1 r]. cbn [fst] in *.
    specialize (IH s1 Hcs Hi1 Hb1 now).
    destruct (run cs s1) as [s2 rs]. exact IH.
Qed.

(** X6 (calls before begin leave no trace).  Whatever is called before the
    first [begin] -- reads, [update], even [reset] -- [begin] then produces
    the same state as on a clock fresh from power-on. *)
Theorem begin_forgets_earlier_calls (cs : list (call * Z)) now :
  forallb (fun cn => negb (is_begin (fst cn))) cs = true ->
  begin now (fst (run cs (static_init (St := clock p))))
  = begin now static_init.
Proof.
  intros Hcs. apply unbegun_run; auto using static_init_uninitialized.
Qed.

End Traces.

Lemma begin_forgets_earlier_calls_witness :
  let cs := [(CReset, 700); (CGetMicroseconds, 800); (CUpdate, 900)] in
  fst (run cs (static_init (St := clock OtherArch)))
  = OnOther.mkState false 700 0 /\
  begin 1000 (fst (run cs (static_init (St := clock OtherArch))))
  = begin 1000 (static_init (St := clock OtherArch)).
Proof.
  split; [reflexivity |].
  exact (begin_forgets_earlier_calls OtherArch
           [(CReset, 700); (CGetMicroseconds, 800); (CUpdate, 900)] 1000 eq_refl).
Defined.

(** ** The ESP32 variant counts its timer interrupts *)




(** ** Fields and text of the formatted time *)

Section FormattedFields.

Context {St : Type} {B : Backend St}.

Lemma getFormattedTime_recompose (s : St) (now : Z) :
  let '(d, h, m, sec) := snd (getFormattedTime now s) in
  d * 86400 + h * 3600 + m * 60 + sec = snd (getSeconds now s) /\
  0 <= h < 24 /\ 0 <= m < 60 /\ 0 <= sec < 60.
Proof.
  rewrite getFormattedTime_fields. cbn [snd].
  set (ts := snd (getSeconds now s)).
  pose proof (Z.div_mod ts 86400 ltac:(lia)).
  pose proof (Z.mod_pos_bound ts 86400 eq_refl).
  pose proof (Z.div_mod (ts mod 86400) 3600 ltac:(lia)).
  pose proof (Z.mod_pos_bound (ts mod 86400) 3600 eq_refl).
  pose proof (Z.div_mod (ts mod 86400 mod 3600) 60 ltac:(lia)).
  pose proof (Z.mod_pos_bound (ts mod 86400 mod 3600) 60 eq_refl).
  assert (0 <= ts mod 86400 / 3600 < 24)
    by (split; [apply Z.div_pos | apply Z.div_lt_upper_bound]; lia).
  assert (0 <= ts mod 86400 mod 3600 / 60 < 60)
    by (split; [apply Z.div_pos | apply Z.div_lt_upper_bound]; lia).
  lia.
Qed.

(** X8 (fields recompose).  The four fields of [getFormattedTime] are an
    exact mixed-radix decomposition of [getSeconds]: hours stay below 24,
    minutes and seconds below 60 (so none is altered by its storage in a
    [uint32_t]), and [days * 86400 + hours * 3600 + minutes * 60 + seconds]
    gives the seconds back. *)
Theorem formatted_fields_recompose (s : St) (now : Z) :
  let '(d, h, m, sec) := snd (getFormattedTime now s) in
  d * 86400 + h * 3600 + m * 60 + sec = snd (getSeconds now s) /\
  0 <= h < 24 /\ 0 <= m < 60 /\ 0 <= sec < 60.
Proof.
  rewrite getFormattedTime_fields. cbn [snd].
  set (ts := snd (getSeconds now s)).
  pose proof (Z.div_mod ts 86400 ltac:(lia)) as E1.
  pose proof (Z.mod_pos_bound ts 86400 eq_refl) as B1.
  pose proof (Z.div_mod (ts mod 86400) 3600 ltac:(lia)) as E2.
  pose proof (Z.mod_pos_bound (ts mod 86400) 3600 eq_refl) as B2.
  pose proof (Z.div_mod (ts mod 86400 mod 3600) 60 ltac:(lia)) as E3.
  pose proof (Z.mod_pos_bound (ts mod 86400 mod 3600) 60 eq_refl) as B3.
  repeat split; lia.
Qed.

(** X9 (unit consistency).  A reading in seconds is the reading in
    milliseconds divided by 1000, and the reading in milliseconds is at
    most 999 microseconds behind the reading in microseconds. *)
Theorem seconds_are_truncated_milliseconds (s : St) (now : Z) :
  snd (getSeconds now s) = snd (getMilliseconds now s) / 1000 /\
  0 <= snd (getMicroseconds now s) - 1000 * snd (getMilliseconds now s) < 1000 /\
  0 <= snd (getMilliseconds now s) - 1000 * snd (getSeconds now s) < 1000.
Proof.
  unfold getSeconds, getMilliseconds.
  destruct (getMicroseconds now s) as [s' v]. cbn [snd].
  assert (E : v / 1000000 = v / 1000 / 1000) by (rewrite Z.div_div by lia; reflexivity).
  rewrite E.
  pose proof (Z.div_mod v 1000 ltac:(lia)).
  pose proof (Z.mod_pos_bound v 1000 eq_refl).
  pose proof (Z.div_mod (v / 1000) 1000 ltac:(lia)).
  pose proof (Z.mod_pos_bound (v / 1000) 1000 eq_refl).
  lia.
Qed.

Lemma getFormattedString_text (s : St) (now : Z) :
  is_u64 (snd (getSeconds now s)) ->
  let '(d, h, m, sec) := snd (getFormattedTime now s) in
  snd (getFormattedString now s) =
  if d >? 0 then (decimal d ++ " jours, " ++ clock_text h m sec)%string
  else clock_text h m sec.
Proof.
  intros Hts.
  pose proof (getFormattedTime_recompose s now) as F.
  unfold getFormattedString.
  pose proof (getFormattedTime_fields s now) as E. cbv zeta in E.
  destruct (getFormattedTime now s) as [s' [[[d h] m] sec]].
  cbn [snd] in *. destruct F as (_ & Hh & Hm & Hs).
  injection E as _ Ed _ _ _.
  destruct (d >? 0); cbn [snd].
  - apply snprintf_days_hms; try lia.
    unfold is_u64 in *. subst d. split.
    + apply Z.div_pos; lia.
    + apply Z.div_lt_upper_bound; lia.
  - apply snprintf_hms; lia.
Qed.

End FormattedFields.

(** ** The text always fits the buffer and shows a colon *)

Section TextShape.

Local Open Scope string_scope.

Lemma decimal_aux_digits (fuel : nat) : forall (k : nat) (n : Z) (acc : string),
  0 <= n < 10 ^ Z.of_nat k -> (1 <= k)%nat ->
  (String.length (decimal_aux fuel n acc) <= k + String.length acc)%nat.
Proof.
  induction fuel as [|fuel IH]; intros k n acc Hn Hk; cbn [decimal_aux].
  - lia.
  - destruct (n / 10 =? 0)%Z eqn:E.
    + cbn [String.length]. lia.
    + apply Z.eqb_neq in E.
      destruct k as [|[|k]]; try lia.
      * exfalso. apply E. apply Z.div_small. cbn in Hn. lia.
      * assert (Hq : 0 <= n / 10 < 10 ^ Z.of_nat (S k)).
        { split; [apply Z.div_pos; lia |].
          apply Z.div_lt_upper_bound; [lia |].
          rewrite (Nat2Z.inj_succ (S k)), Z.pow_succ_r in Hn by lia. lia. }
        specialize (IH (S k) (n / 10) (String (digit_char (n mod 10)) acc)
                       Hq ltac:(lia)).
        cbn [String.length] in IH. lia.
Qed.

Lemma decimal_aux_nonempty (fuel : nat) : forall (n : Z) (acc : string),
  (String.length acc <= String.length (decimal_aux fuel n acc))%nat.
Proof.
  induction fuel as [|fuel IH]; intros n acc; cbn [decimal_aux]; [lia |].
  destruct (n / 10 =? 0)%Z.
  - cbn [String.length]. lia.
  - specialize (IH (n / 10) (String (digit_char (n mod 10)) acc)).
    cbn [String.length] in IH. lia.
Qed.

Lemma decimal_aux_S (fuel : nat) (n : Z) (acc : string) :
  decimal_aux (S fuel) n acc =
  if (n / 10 =? 0)%Z then String (digit_char (n mod 10)) acc
  else decimal_aux fuel (n / 10) (String (digit_char (n mod 10)) acc).
Proof. reflexivity. Qed.

Lemma decimal_days_length (d : Z) :
  0 <= d < 10 ^ 9 -> (1 <= String.length (decimal d) <= 9)%nat.
Proof.
  intros Hd. unfold decimal. split.
  - rewrite decimal_aux_S.
    destruct (d / 10 =? 0)%Z; [cbn [String.length]; lia |].
    pose proof (decimal_aux_nonempty 19 (d / 10)
                  (String (digit_char (d mod 10)) "")) as H.
    cbn [String.length] in H. exact H.
  - exact (decimal_aux_digits 20 9 d "" Hd ltac:(lia)).
Qed.

Lemma append_assoc' (a b c : string) : (a ++ b) ++ c = a ++ (b ++ c).
Proof. induction a; cbn; [reflexivity | now rewrite IHa]. Qed.

(** Characters that are not the colon. *)
Lemma digit_char_not_colon (x : Z) :
  0 <= x < 10 -> Ascii.eqb (digit_char x) ":" = false.
Proof.
  intros H.
  assert (C : x = 0 \/ x = 1 \/ x = 2 \/ x = 3 \/ x = 4 \/ x = 5 \/ x = 6 \/
              x = 7 \/ x = 8 \/ x = 9) by lia.
  repeat (destruct C as [-> | C]; [reflexivity |]). subst x. reflexivity.
Qed.

Lemma lacks_app (c : ascii) (a b : string) :
  lacks c (a ++ b) = lacks c a && lacks c b.
Proof.
  induction a as [|x a IH]; cbn [append lacks]; [reflexivity |].
  now rewrite IH, andb_assoc.
Qed.

Lemma decimal_aux_lacks_colon (fuel : nat) : forall (n : Z) (acc : string),
  lacks ":" acc = true -> lacks ":" (decimal_aux fuel n acc) = true.
Proof.
  induction fuel as [|fuel IH]; intros n acc H; cbn [decimal_aux]; [exact H |].
  assert (D : lacks ":" (String (digit_char (n mod 10)) acc) = true).
  { cbn [lacks]. rewrite digit_char_not_colon, H; [reflexivity |].
    apply Z.mod_pos_bound. lia. }
  destruct (n / 10 =? 0)%Z; [exact D | apply IH, D].
Qed.

Lemma decimal_lacks_colon (n : Z) : lacks ":" (decimal n) = true.
Proof. apply decimal_aux_lacks_colon. reflexivity. Qed.

Lemma zero_pad_lacks_colon (k : nat) (s : string) :
  lacks ":" s = true -> lacks ":" (zero_pad k s) = true.
Proof. induction k; cbn [zero_pad lacks]; auto. Qed.

Lemma decimal_padded_lacks_colon (w : nat) (n : Z) :
  lacks ":" (decimal_padded w n) = true.
Proof. apply zero_pad_lacks_colon, decimal_lacks_colon. Qed.

(** The first colon of a text comes right after a colon-free prefix. *)
Lemma index_after_colon_free (a b : string) :
  lacks ":" a = true ->
  index 0 ":" (a ++ String ":" b) = Some (String.length a).
Proof.
  induction a as [|c a IH]; intros H.
  - cbn. destruct b; reflexivity.
  - cbn [lacks] in H. apply andb_prop in H as [Hc Ha].
    apply negb_true_iff, Ascii.eqb_neq in Hc.
    cbn [append index prefix].
    destruct (ascii_dec ":" c) as [E | _]; [congruence |].
    rewrite (IH Ha). reflexivity.
Qed.

End TextShape.

Section ReachableText.

Variable p : platform.

Local Open Scope string_scope.

Lemma wf_interrupt (s : clock p) : wf p s -> wf p (interrupt p s).
Proof.
  destruct p; cbn [interrupt].
  - apply wf_timerISR.
  - apply wf_microsOverflowISR.
  - trivial.
Qed.

Lemma wf_steps (es : list event) : forall s : clock p,
  wf p s -> wf p (steps p es s).
Proof.
  induction es as [|e es IH]; intros s H; [exact H |].
  apply IH. destruct e as [c now |]; cbn [step].
  - apply wf_perform, H.
  - apply wf_interrupt, H.
Qed.

(** On a state reached from power-on, the text in terms of the seconds
    read. *)
Lemma reachable_text (es : list event) (now : Z) :
  let s := steps p es static_init in
  let secs := snd (getSeconds now s) in
  exists h m sec : Z,
    0 <= h < 24 /\ 0 <= m < 60 /\ 0 <= sec < 60 /\
    0 <= secs / 86400 < 10 ^ 9 /\
    snd (getFormattedString now s) =
    if (secs <? 86400)%Z then clock_text h m sec
    else decimal (secs / 86400) ++ " jours, " ++ clock_text h m sec.
Proof.
  intros s secs.
  assert (W : wf p s) by (apply wf_steps, wf_static_init).
  pose proof (getMicroseconds_is_u64 p s now W) as Hv.
  assert (Hs : is_u64 secs).
  { subst secs. unfold getSeconds.
    destruct (getMicroseconds now s) as [s' v]. cbn [snd] in *.
    unfold is_u64 in *. split.
    - apply Z.div_pos; lia.
    - apply Z.div_lt_upper_bound; lia. }
  pose proof (getFormattedString_text s now Hs) as T.
  pose proof (getFormattedTime_recompose s now) as F.
  pose proof (getFormattedTime_fields s now) as E. cbv zeta in E.
  fold secs in E, F.
  destruct (getFormattedTime now s) as [s' [[[d h] m] sec]].
  cbn [snd] in *. injection E as _ Ed _ _ _.
  destruct F as (F & Hh & Hm & Hsec).
  assert (Hq : 0 <= secs < 2 ^ 64 / 1000000 + 1).
  { subst secs. unfold getSeconds.
    destruct (getMicroseconds now s) as [s'' v]. cbn [snd] in *.
    unfold is_u64 in Hv. split; [apply Z.div_pos; lia |].
    apply Z.lt_succ_r, Z.div_le_mono; lia. }
  assert (Hd : 0 <= d < 10 ^ 9).
  { rewrite Ed. split; [apply Z.div_pos; lia |].
    apply Z.div_lt_upper_bound; [lia |].
    change (2 ^ 64 / 1000000 + 1) with 18446744073710 in Hq. lia. }
  exists h, m, sec. rewrite <- Ed. repeat split; try lia.
  rewrite T.
  assert (C : (d >? 0)%Z = negb (secs <? 86400)%Z).
  { rewrite Z.gtb_ltb. destruct (secs <? 86400)%Z eqn:L.
    - apply Z.ltb_lt in L. apply Z.ltb_ge. lia.
    - apply Z.ltb_ge in L. apply Z.ltb_lt. lia. }
  rewrite C. destruct (secs <? 86400)%Z; reflexivity.
Qed.

(** X10 (the buffer suffices).  In every state reachable from power-on the
    text of [getFormattedString] has 8 characters during the first day and
    16 more than the decimal digits of the day count afterwards, at most
    25 in all: the 64-byte buffer of [snprintf] never truncates it. *)
Theorem formatted_string_fits_buffer (es : list event) (now : Z) :
  let s := steps p es static_init in
  let secs := snd (getSeconds now s) in
  String.length (snd (getFormattedString now s)) =
  (if (secs <? 86400)%Z then 8
   else String.length (decimal (secs / 86400)) + 16)%nat /\
  (8 <= String.length (snd (getFormattedString now s)) <= 25)%nat.
Proof.
  intros s secs.
  destruct (reachable_text es now) as (h & m & sec & Hh & Hm & Hs & Hd & T).
  fold s secs in T, Hd. rewrite T.
  pose proof (decimal_days_length _ Hd) as L.
  pose proof (clock_text_length h m sec ltac:(lia) ltac:(lia) ltac:(lia)) as K.
  destruct (secs <? 86400)%Z.
  - rewrite K. lia.
  - rewrite !string_length_app, K.
    change (String.length " jours, ") with 8%nat. lia.
Qed.

(** X11 (a colon, not in front).  In every state reachable from power-on
    the first [':'] of the text stands at index 2 during the first day and
    right after the day count, the word and the hours afterwards; so the
    text is never empty and [indexOf(':')] is positive. *)
Theorem formatted_string_first_colon (es : list event) (now : Z) :
  let s := steps p es static_init in
  let secs := snd (getSeconds now s) in
  index 0 ":" (snd (getFormattedString now s)) =
  Some (if (secs <? 86400)%Z then 2
        else String.length (decimal (secs / 86400)) + 10)%nat.
Proof.
  intros s secs.
  destruct (reachable_text es now) as (h & m & sec & Hh & Hm & Hs & Hd & T).
  fold s secs in T, Hd. rewrite T.
  pose proof (decimal_padded_2_length h ltac:(lia)) as K.
  destruct (secs <? 86400)%Z; unfold clock_text.
  - change (decimal_padded 2 h ++ ":" ++ decimal_padded 2 m ++ ":" ++ decimal_padded 2 sec)
      with (decimal_padded 2 h ++ String ":" (decimal_padded 2 m ++ ":" ++ decimal_padded 2 sec)).
    rewrite index_after_colon_free by apply decimal_padded_lacks_colon.
    now rewrite K.
  - change (decimal (secs / 86400) ++ " jours, " ++
            decimal_padded 2 h ++ ":" ++ decimal_padded 2 m ++ ":" ++ decimal_padded 2 sec)
      with (decimal (secs / 86400) ++ (" jours, " ++
            (decimal_padded 2 h ++ String ":" (decimal_padded 2 m ++ ":" ++ decimal_padded 2 sec)))).
    rewrite <- !append_assoc'.
    rewrite index_after_colon_free.
    + rewrite !string_length_app, K.
      change (String.length " jours, ") with 8%nat. f_equal. lia.
    + rewrite !lacks_app, decimal_lacks_colon, decimal_padded_lacks_colon.
      reflexivity.
Qed.

End ReachableText.

(** ** The ESP8266 variant: what a read is made of *)

Section OverflowWidening.

Lemma land_high_low (h c : Z) : is_u32 c -> Z.land (h * 2 ^ 32) c = 0.
Proof.
  unfold is_u32. intros Hc. apply Z.bits_inj'. intros n Hn.
  rewrite Z.land_spec, Z.bits_0.
  destruct (Z.lt_ge_cases n 32) as [L | L].
  - rewrite Z.mul_pow2_bits_low by lia. reflexivity.
  - destruct (Z.eq_dec c 0) as [-> | NZ].
    + rewrite Z.bits_0. apply andb_false_r.
    + rewrite (Z.bits_above_log2 c n); [apply andb_false_r | lia |].
      assert (Z.log2 c < 32) by (apply Z.log2_lt_pow2; lia). lia.
Qed.

Lemma lor_high_low (h c : Z) :
  is_u32 c -> Z.lor (h * 2 ^ 32) c = h * 2 ^ 32 + c.
Proof.
  intros Hc. pose proof (land_high_low h c Hc) as L.
  rewrite <- Z.lxor_lor by exact L. symmetry.
  apply Z.add_nocarry_lxor, L.
Qed.

(** The value of a read on an initialized clock. *)
Lemma esp8266_read_value (s : OnESP8266.state) (now : Z) :
  OnESP8266.initialized s = true ->
  is_u32 (OnESP8266.overflow_counter s) ->
  snd (OnESP8266.getMicroseconds now s)
  = (if u32 now <? OnESP8266.last_micros s
     then u32 (OnESP8266.overflow_counter s + 1)
     else OnESP8266.overflow_counter s) * 2 ^ 32 + u32 now /\
  fst (OnESP8266.getMicroseconds now s)
  = OnESP8266.mkState true (OnESP8266.overflow_counter s) (u32 now)
      (snd (OnESP8266.getMicroseconds now s)) (OnESP8266.timer1 s).
Proof.
  intros Hi Ho.
  unfold OnESP8266.getMicroseconds, OnESP8266.updateTime. rewrite Hi.
  cbn [negb fst snd OnESP8266.total_micros].
  set (high := if u32 now <? OnESP8266.last_micros s
               then u32 (OnESP8266.overflow_counter s + 1)
               else OnESP8266.overflow_counter s).
  assert (Hh : is_u32 high) by (subst high; destruct (_ <? _); auto with clock).
  assert (E : u64 (Z.shiftl (u64 high) 32) = high * 2 ^ 32).
  { unfold is_u32 in Hh.
    rewrite (u64_small high) by (unfold is_u64; lia).
    rewrite Z.shiftl_mul_pow2 by lia.
    apply u64_small. unfold is_u64. lia. }
  rewrite E, lor_high_low by apply u32_range. split; reflexivity.
Qed.

(** X12 (the two words of a read).  On an initialized ESP8266 clock the
    value read has the current [micros()] sample as its low 32 bits and, as
    its high 32 bits, [overflow_counter] -- plus one (modulo 2^32) exactly
    when the sample is below the previous one. *)
Theorem esp8266_read_is_counter_and_sample (s : OnESP8266.state) (now : Z) :
  OnESP8266.initialized s = true ->
  is_u32 (OnESP8266.overflow_counter s) ->
  let t := snd (OnESP8266.getMicroseconds now s) in
  t mod 2 ^ 32 = u32 now /\
  t / 2 ^ 32 = (if u32 now <? OnESP8266.last_micros s
                then u32 (OnESP8266.overflow_counter s + 1)
                else OnESP8266.overflow_counter s).
Proof.
  intros Hi Ho t. subst t.
  rewrite (proj1 (esp8266_read_value s now Hi Ho)).
  pose proof (u32_range now) as Hn. unfold is_u32 in Hn.
  split.
  - rewrite Z.add_comm, Z.mod_add by lia. apply Z.mod_small, Hn.
  - rewrite Z.add_comm, Z.div_add by lia.
    rewrite Z.div_small by exact Hn. reflexivity.
Qed.

Lemma esp8266_read_is_counter_and_sample_witness :
  let s := OnESP8266.mkState true 3 4294967000 17179868184 OnESP8266.timer1_off in
  let t := snd (OnESP8266.getMicroseconds 25 s) in
  t mod 2 ^ 32 = 25 /\ t / 2 ^ 32 = 4.
Proof.
  assert (Ho : is_u32 3) by (split; [discriminate | reflexivity]).
  pose proof (esp8266_read_is_counter_and_sample
                (OnESP8266.mkState true 3 4294967000 17179868184
                                   OnESP8266.timer1_off)
                25 eq_refl Ho) as W.
  vm_compute in W. vm_compute. exact W.
Defined.

(** X13 (durations within one period).  On ESP8266, when [micros()] has not
    wrapped since the previous sample and no overflow interrupt runs
    between two reads, the difference of the two values read is exactly
    the difference of the two [micros()] samples. *)
Theorem esp8266_difference_without_wrap (s : OnESP8266.state) (a b : Z) :
  OnESP8266.initialized s = true ->
  is_u32 (OnESP8266.overflow_counter s) ->
  OnESP8266.last_micros s <= u32 a <= u32 b ->
  let (s1, t1) := OnESP8266.getMicroseconds a s in
  let (s2, t2) := OnESP8266.getMicroseconds b s1 in
  t2 - t1 = u32 b - u32 a.
Proof.
  intros Hi Ho Hab.
  destruct (esp8266_read_value s a Hi Ho) as [V1 S1].
  destruct (OnESP8266.getMicroseconds a s) as [s1 t1]. cbn [fst snd] in *.
  assert (Hi1 : OnESP8266.initialized s1 = true) by (rewrite S1; reflexivity).
  assert (Ho1 : is_u32 (OnESP8266.overflow_counter s1)) by (rewrite S1; exact Ho).
  destruct (esp8266_read_value s1 b Hi1 Ho1) as [V2 _].
  destruct (OnESP8266.getMicroseconds b s1) as [s2 t2]. cbn [fst snd] in *.
  rewrite V1, V2, S1. cbn [OnESP8266.last_micros OnESP8266.overflow_counter].
  assert (L1 : (u32 a <? OnESP8266.last_micros s) = false) by (apply Z.ltb_ge; lia).
  assert (L2 : (u32 b <? u32 a) = false) by (apply Z.ltb_ge; lia).
  rewrite L1, L2. lia.
Qed.

Lemma esp8266_difference_without_wrap_witness :
  let s := OnESP8266.mkState true 2 1000 8589935592 OnESP8266.timer1_off in
  let (s1, t1) := OnESP8266.getMicroseconds 5000 s in
  let (s2, t2) := OnESP8266.getMicroseconds 7500 s1 in
  t2 - t1 = 2500.
Proof.
  assert (Ho : is_u32 2) by (split; [discriminate | reflexivity]).
  assert (Hab : 1000 <= u32 5000 <= u32 7500) by (split; discriminate).
  pose proof (esp8266_difference_without_wrap
                (OnESP8266.mkState true 2 1000 8589935592 OnESP8266.timer1_off)
                5000 7500 eq_refl Ho Hab) as W.
  vm_compute in W. vm_compute. exact W.
Defined.

(** X14 (a wrap is seen once).  On ESP8266 a read that finds [micros()]
    below the previous sample reports one more period than an immediate
    second read of the same sample: reading twice at the same instant loses
    2^32 microseconds. *)
Theorem esp8266_reread_after_wrap_drops_a_period (s : OnESP8266.state) (now : Z) :
  OnESP8266.initialized s = true ->
  0 <= OnESP8266.overflow_counter s < 2 ^ 32 - 1 ->
  u32 now < OnESP8266.last_micros s ->
  let (s1, t1) := OnESP8266.getMicroseconds now s in
  let (s2, t2) := OnESP8266.getMicroseconds now s1 in
  t1 = (OnESP8266.overflow_counter s + 1) * 2 ^ 32 + u32 now /\
  t2 = t1 - 2 ^ 32.
Proof.
  intros Hi Ho Hlt.
  assert (Ho' : is_u32 (OnESP8266.overflow_counter s)) by (unfold is_u32; lia).
  destruct (esp8266_read_value s now Hi Ho') as [V1 S1].
  destruct (OnESP8266.getMicroseconds now s) as [s1 t1]. cbn [fst snd] in *.
  assert (Hi1 : OnESP8266.initialized s1 = true) by (rewrite S1; reflexivity).
  assert (Ho1 : is_u32 (OnESP8266.overflow_counter s1)) by (rewrite S1; exact Ho').
  destruct (esp8266_read_value s1 now Hi1 Ho1) as [V2 _].
  destruct (OnESP8266.getMicroseconds now s1) as [s2 t2]. cbn [fst snd] in *.
  rewrite V2, V1, S1. cbn [OnESP8266.last_micros OnESP8266.overflow_counter].
  assert (L1 : (u32 now <? OnESP8266.last_micros s) = true) by (apply Z.ltb_lt; lia).
  rewrite L1, Z.ltb_irrefl.
  rewrite (u32_small (OnESP8266.overflow_counter s + 1)) by (unfold is_u32; lia).
  split; lia.
Qed.

Lemma esp8266_reread_after_wrap_drops_a_period_witness :
  let s := OnESP8266.mkState true 0 4294967280 4294967280 OnESP8266.timer1_off in
  let (s1, t1) := OnESP8266.getMicroseconds 5 s in
  let (s2, t2) := OnESP8266.getMicroseconds 5 s1 in
  t1 = 2 ^ 32 + 5 /\ t2 = 5.
Proof.
  assert (Ho : 0 <= 0 < 2 ^ 32 - 1) by (split; [discriminate | reflexivity]).
  assert (Hlt : u32 5 < 4294967280) by reflexivity.
  pose proof (esp8266_reread_after_wrap_drops_a_period
                (OnESP8266.mkState true 0 4294967280 4294967280
                                   OnESP8266.timer1_off)
                5 eq_refl Ho Hlt) as W.
  vm_compute in W. vm_compute. exact W.
Defined.

End OverflowWidening.

(** ** Reads never go back on the ESP32 and polling variants *)

Section MonotoneTraces.

(** One step of a polling clock that is not a [reset]: the elapsed
    milliseconds on show do not decrease and grow by less than a period. *)
Lemma polling_step_reading (e : event) (s : OnOther.state) :
  match e with ECall CReset _ => false | _ => true end = true ->
  is_u32 (OnOther.last_millis s) ->
  0 <= OnOther.total_millis s ->
  OnOther.total_millis s + 2 ^ 32 <= 2 ^ 64 ->
  let s' := step OtherArch s e in
  is_u32 (OnOther.last_millis s') /\
  0 <= OnOther.total_millis s' <= OnOther.total_millis s + (2 ^ 32 - 1) /\
  (if OnOther.initialized s then OnOther.total_millis s else 0)
  <= (if OnOther.initialized s' then OnOther.total_millis s' else 0).
Proof.
  intros He Hl H0 Hb s'.
  assert (U : forall now,
             let u := OnOther.update now s in
             is_u32 (OnOther.last_millis u) /\
             0 <= OnOther.total_millis u <= OnOther.total_millis s + (2 ^ 32 - 1) /\
             (if OnOther.initialized s then OnOther.total_millis s else 0)
             <= (if OnOther.initialized u then OnOther.total_millis u else 0)).
  { intros now u. subst u.
    destruct (OnOther.initialized s) eqn:Hi.
    - destruct (updateSoftwareTimer_delta s now Hi Hl) as [E D].
      cbv zeta in E, D. rewrite E.
      cbn [OnOther.last_millis OnOther.total_millis OnOther.initialized].
      unfold is_u32 in D.
      rewrite u64_small by (unfold is_u64; lia).
      split; [apply u32_range | lia].
    - unfold OnOther.update, OnOther.updateSoftwareTimer. rewrite Hi.
      cbn [negb]. rewrite Hi. split; [exact Hl | lia]. }
  subst s'. destruct e as [c now |]; cbn [step].
  - rewrite (perform_state OtherArch c s now).
    destruct c; try discriminate He; try apply U.
    + cbn [begin backend_of Other_backend]. unfold OnOther.begin.
      destruct (OnOther.initialized s) eqn:Hi.
      * rewrite Hi. split; [exact Hl | lia].
      * cbn [OnOther.last_millis OnOther.total_millis OnOther.initialized].
        split; [apply u32_range | lia].
    + destruct (OnOther.initialized s); (split; [exact Hl | lia]).
  - cbn [interrupt].
    destruct (OnOther.initialized s); (split; [exact Hl | lia]).
Qed.

Lemma polling_steps_reading (es : list event) : forall s : OnOther.state,
  no_reset_in es = true ->
  is_u32 (OnOther.last_millis s) ->
  0 <= OnOther.total_millis s ->
  OnOther.total_millis s + 2 ^ 32 * Z.of_nat (List.length es) <= 2 ^ 64 ->
  let s' := steps OtherArch es s in
  is_u32 (OnOther.last_millis s') /\
  0 <= OnOther.total_millis s'
    <= OnOther.total_millis s + (2 ^ 32 - 1) * Z.of_nat (List.length es) /\
  (if OnOther.initialized s then OnOther.total_millis s else 0)
  <= (if OnOther.initialized s' then OnOther.total_millis s' else 0).
Proof.
  induction es as [|e es IH]; intros s Hn Hl H0 Hb.
  - cbn [steps fold_left List.length Z.of_nat]. split; [exact Hl | lia].
  - cbn [no_reset_in forallb] in Hn. apply andb_prop in Hn as [He Hn].
    cbn [List.length] in Hb. rewrite Nat2Z.inj_succ in Hb.
    destruct (polling_step_reading e s He Hl H0 ltac:(lia)) as (L1 & T1 & R1).
    cbv zeta. unfold steps. cbn [fold_left].
    fold (steps OtherArch es (step OtherArch s e)).
    destruct (IH (step OtherArch s e) Hn L1 ltac:(lia) ltac:(lia))
      as (L2 & T2 & R2).
    cbn [List.length]. rewrite Nat2Z.inj_succ.
    split; [exact L2 | split; lia].
Qed.

Lemma polling_read_of_update (s : OnOther.state) (now : Z) :
  OnOther.getMicroseconds now s =
  (OnOther.update now s,
   if OnOther.initialized s
   then u64 (OnOther.total_millis (OnOther.update now s) * 1000) else 0).
Proof.
  unfold OnOther.getMicroseconds, OnOther.update, OnOther.updateSoftwareTimer.
  destruct (OnOther.initialized s) eqn:Hi; cbn [negb]; rewrite ?Hi; reflexivity.
Qed.

(** X15 (polling reads are monotone).  On the polling variant, after a read
    of [t1], any calls other than [reset] and then a second read give a
    value that is at least [t1] -- provided the clock stays short of the
    64-bit microsecond range. *)
Theorem polling_reads_never_decrease
        (es : list event) (s : OnOther.state) (now now' : Z) :
  no_reset_in es = true ->
  is_u32 (OnOther.last_millis s) ->
  0 <= OnOther.total_millis s ->
  (OnOther.total_millis s + 2 ^ 32 * (Z.of_nat (List.length es) + 2)) * 1000
  < 2 ^ 64 ->
  let (s1, t1) := OnOther.getMicroseconds now s in
  t1 <= snd (OnOther.getMicroseconds now' (steps OtherArch es s1)).
Proof.
  intros Hn Hl H0 Hb.
  destruct (polling_step_reading (ECall CUpdate now) s eq_refl Hl H0 ltac:(lia))
    as (L1 & T1 & R1).
  cbn [step perform fst] in L1, T1, R1.
  change (update (St := clock OtherArch) now s) with (OnOther.update now s) in *.
  rewrite polling_read_of_update.
  pose proof (update_keeps_flag OtherArch s now) as I1.
  cbn [initialized update backend_of Other_backend] in I1.
  set (s1 := OnOther.update now s) in *.
  destruct (polling_steps_reading es s1 Hn L1 ltac:(lia) ltac:(lia))
    as (L2 & T2 & R2).
  set (s2 := steps OtherArch es s1) in *.
  destruct (polling_step_reading (ECall CUpdate now') s2 eq_refl L2 ltac:(lia)
              ltac:(lia)) as (L3 & T3 & R3).
  cbn [step perform fst] in L3, T3, R3.
  change (update (St := clock OtherArch) now' s2) with (OnOther.update now' s2) in *.
  rewrite polling_read_of_update. cbn [snd].
  pose proof (update_keeps_flag OtherArch s2 now') as I3.
  cbn [initialized update backend_of Other_backend] in I3.
  rewrite I3 in R3. rewrite <- I1. clear I1 I3 R1.
  destruct (OnOther.initialized s1), (OnOther.initialized s2);
    rewrite ?u64_small by (unfold is_u64; lia); lia.
Qed.

Lemma polling_reads_never_decrease_witness :
  let s := OnOther.begin 4294967000 OnOther.static_init in
  let es := [ECall CUpdate 4294967200; ECall CBegin 100; EInterrupt;
             ECall CGetSeconds 300] in
  let (s1, t1) := OnOther.getMicroseconds 4294967100 s in
  t1 = 100000 /\
  snd (OnOther.getMicroseconds 50 (steps OtherArch es s1)) = 4294967642000 /\
  t1 <= snd (OnOther.getMicroseconds 50 (steps OtherArch es s1)).
Proof.
  assert (Hl : is_u32 (OnOther.last_millis
                         (OnOther.begin 4294967000 OnOther.static_init)))
    by (split; [discriminate | reflexivity]).
  assert (H0 : 0 <= OnOther.total_millis
                      (OnOther.begin 4294967000 OnOther.static_init))
    by discriminate.
  pose proof (polling_reads_never_decrease
                [ECall CUpdate 4294967200; ECall CBegin 100; EInterrupt;
                 ECall CGetSeconds 300]
                (OnOther.begin 4294967000 OnOther.static_init) 4294967100 50
                eq_refl Hl H0 eq_refl) as W.
  vm_compute in W. vm_compute. repeat split; exact W.
Defined.

End MonotoneTraces.

Section MonotoneESP32.

Lemma esp32_step_count (e : event) (s : OnESP32.state) :
  match e with ECall CReset _ => false | _ => true end = true ->
  0 <= OnESP32.time_fct_micros s ->
  OnESP32.time_fct_micros s + 1 < 2 ^ 64 ->
  let s' := step ESP32 s e in
  OnESP32.time_fct_micros s <= OnESP32.time_fct_micros s'
    <= OnESP32.time_fct_micros s + 1 /\
  (OnESP32.initialized s = true -> OnESP32.initialized s' = true).
Proof.
  intros He H0 Hb s'. subst s'. destruct e as [c now |]; cbn [step].
  - rewrite (perform_state ESP32 c s now).
    destruct c; try discriminate He;
      cbn [begin update backend_of ESP32_backend];
      unfold OnESP32.begin, OnESP32.update;
      try (split; [lia | trivial]).
    destruct (OnESP32.initialized s) eqn:Hi;
      cbn [OnESP32.time_fct_micros OnESP32.initialized];
      (split; [lia | trivial]).
  - cbn [interrupt]. unfold OnESP32.timerISR.
    cbn [OnESP32.time_fct_micros OnESP32.initialized].
    rewrite u64_small by (unfold is_u64; lia). split; [lia | trivial].
Qed.

Lemma esp32_steps_count (es : list event) : forall s : OnESP32.state,
  no_reset_in es = true ->
  0 <= OnESP32.time_fct_micros s ->
  OnESP32.time_fct_micros s + Z.of_nat (List.length es) < 2 ^ 64 ->
  let s' := steps ESP32 es s in
  OnESP32.time_fct_micros s <= OnESP32.time_fct_micros s'
    <= OnESP32.time_fct_micros s + Z.of_nat (List.length es) /\
  (OnESP32.initialized s = true -> OnESP32.initialized s' = true).
Proof.
  induction es as [|e es IH]; intros s Hn H0 Hb.
  - cbn [steps fold_left List.length Z.of_nat]. split; [lia | trivial].
  - cbn [no_reset_in forallb] in Hn. apply andb_prop in Hn as [He Hn].
    cbn [List.length] in Hb |- *. rewrite Nat2Z.inj_succ in Hb |- *.
    destruct (esp32_step_count e s He H0 ltac:(lia)) as (T1 & I1).
    cbv zeta. unfold steps. cbn [fold_left].
    fold (steps ESP32 es (step ESP32 s e)).
    destruct (IH (step ESP32 s e) Hn ltac:(lia) ltac:(lia)) as (T2 & I2).
    split; [lia | auto].
Qed.

(** X16 (ESP32 reads are monotone).  On ESP32 a read never returns less
    than an earlier read when only calls other than [reset] and timer
    interrupts happen in between -- short of 2^64 microseconds. *)
Theorem esp32_reads_never_decrease
        (es : list event) (s : OnESP32.state) (now now' : Z) :
  no_reset_in es = true ->
  0 <= OnESP32.time_fct_micros s ->
  OnESP32.time_fct_micros s + Z.of_nat (List.length es) < 2 ^ 64 ->
  snd (OnESP32.getMicroseconds now s)
  <= snd (OnESP32.getMicroseconds now' (steps ESP32 es s)).
Proof.
  intros Hn H0 Hb.
  destruct (esp32_steps_count es s Hn H0 Hb) as (T & I). cbv zeta in T, I.
  unfold OnESP32.getMicroseconds.
  destruct (OnESP32.initialized s).
  - rewrite (I eq_refl). cbn [negb snd]. lia.
  - destruct (OnESP32.initialized (steps ESP32 es s)); cbn [negb snd]; lia.
Qed.

Lemma esp32_reads_never_decrease_witness :
  let s := OnESP32.begin 0 OnESP32.static_init in
  let es := [EInterrupt; ECall CGetMilliseconds 0; EInterrupt; ECall CBegin 0;
             EInterrupt] in
  snd (OnESP32.getMicroseconds 0 s) = 0 /\
  snd (OnESP32.getMicroseconds 0 (steps ESP32 es s)) = 3 /\
  snd (OnESP32.getMicroseconds 0 s)
  <= snd (OnESP32.getMicroseconds 0 (steps ESP32 es s)).
Proof.
  assert (H0 : 0 <= OnESP32.time_fct_micros (OnESP32.begin 0 OnESP32.static_init))
    by discriminate.
  pose proof (esp32_reads_never_decrease
                [EInterrupt; ECall CGetMilliseconds 0; EInterrupt; ECall CBegin 0;
                 EInterrupt]
                (OnESP32.begin 0 OnESP32.static_init) 0 0 eq_refl H0 eq_refl) as W.
  vm_compute in W. vm_compute. repeat split; exact W.
Defined.

End MonotoneESP32.

(** ** [getOverflowYears] *)

(** X17 (the overflow horizon).  [getOverflowYears] evaluates, in binary64,
    to a finite number strictly between 584942 and 584943 -- above the
    500000 that the library's own test asks for. *)
Theorem overflow_years_is_about_584942 :
  getOverflowYears = S754_finite false 5024617105166434 (-33) /\
  double_lt (double_of_u64 584942) getOverflowYears = true /\
  double_lt getOverflowYears (double_of_u64 584943) = true /\
  double_lt (double_of_u64 500000) getOverflowYears = true.
Proof. vm_compute. repeat split. Qed.

Section OverflowInterrupts.

Lemma u32_add_l (a b : Z) : u32 (u32 a + b) = u32 (a + b).
Proof. unfold u32. now rewrite Zplus_mod_idemp_l. Qed.

Lemma esp8266_overflows (n : nat) : forall s : OnESP8266.state,
  is_u32 (OnESP8266.overflow_counter s) ->
  Nat.iter n OnESP8266.microsOverflowISR s
  = OnESP8266.mkState (OnESP8266.initialized s)
      (u32 (OnESP8266.overflow_counter s + Z.of_nat n))
      (OnESP8266.last_micros s) (OnESP8266.total_micros s)
      (OnESP8266.timer1 s).
Proof.
  induction n as [|n IH]; intros s Hs.
  - cbn [Nat.iter Z.of_nat]. rewrite Z.add_0_r, u32_small by assumption.
    now destruct s.
  - rewrite Nat.iter_succ, (IH s Hs), Nat2Z.inj_succ.
    unfold OnESP8266.microsOverflowISR.
    cbn [OnESP8266.initialized OnESP8266.overflow_counter
         OnESP8266.last_micros OnESP8266.total_micros OnESP8266.timer1].
    rewrite u32_add_l. do 2 f_equal. lia.
Qed.

(** X18 (overflow interrupts raise the high word).  On ESP8266, [n] runs of
    the overflow handler add [n] (modulo 2^32) to the high 32 bits of the
    next read and touch nothing else; a read that sees no wrap then
    returns [((overflow_counter + n) mod 2^32) * 2^32 + sample]. *)
Theorem esp8266_interrupts_advance_high_word
        (s : OnESP8266.state) (n : nat) (now : Z) :
  OnESP8266.initialized s = true ->
  is_u32 (OnESP8266.overflow_counter s) ->
  OnESP8266.last_micros s <= u32 now ->
  snd (OnESP8266.getMicroseconds now (Nat.iter n OnESP8266.microsOverflowISR s))
  = (OnESP8266.overflow_counter s + Z.of_nat n) mod 2 ^ 32 * 2 ^ 32 + u32 now.
Proof.
  intros Hi Ho Hl. rewrite (esp8266_overflows n s Ho).
  set (s' := OnESP8266.mkState _ _ _ _ _).
  assert (Hi' : OnESP8266.initialized s' = true) by exact Hi.
  assert (Ho' : is_u32 (OnESP8266.overflow_counter s')) by apply u32_range.
  rewrite (proj1 (esp8266_read_value s' now Hi' Ho')).
  subst s'. cbn [OnESP8266.last_micros OnESP8266.overflow_counter].
  assert (L : (u32 now <? OnESP8266.last_micros s) = false) by (apply Z.ltb_ge; lia).
  rewrite L. reflexivity.
Qed.

Lemma esp8266_interrupts_advance_high_word_witness :
  let s := OnESP8266.mkState true 4294967295 100 100 OnESP8266.timer1_off in
  snd (OnESP8266.getMicroseconds 250 (Nat.iter 2 OnESP8266.microsOverflowISR s))
  = 1 * 2 ^ 32 + 250.
Proof.
  assert (Ho : is_u32 4294967295) by (split; [discriminate | reflexivity]).
  assert (Hl : 100 <= u32 250) by discriminate.
  pose proof (esp8266_interrupts_advance_high_word
                (OnESP8266.mkState true 4294967295 100 100 OnESP8266.timer1_off)
                2 250 eq_refl Ho Hl) as W.
  vm_compute in W. vm_compute. exact W.
Defined.

End OverflowInterrupts.
